(** * Blog API (main.py): authentication core and ownership-scoped CRUD

    A shallow embedding of [main.py].  The tables of the relational store
    are lists of rows, a SQLAlchemy session is a transactional view over
    the store, request handlers are computations in a small state and
    error monad over that session, and [get_db] is the bracket that opens
    a session for a request and closes it on the way out.

    What lives outside [main.py] is taken as a parameter of the
    development: the signing secret, the HMAC-SHA256 primitive behind
    [jwt.encode]/[jwt.decode], and the passlib context behind
    [verify_password]/[get_password_hash].  The store is modelled the way
    the handlers use it: rows are found with [filter(..).first()], primary
    keys are assigned on insert, and no referential action (cascade or
    rejection) is attached to the foreign-key columns beyond what the
    handlers check themselves.  Handlers receive request bodies that have
    passed the pydantic validators, and a protected endpoint receives the
    bearer token the routing layer has taken from the header. *)

From stdpp Require Import base option list strings gmap.
From Stdlib Require Import ZArith Lia Ascii.

Open Scope string_scope.
Open Scope list_scope.
Open Scope Z_scope.

(** ** Rows of the four tables (the SQLAlchemy models) *)

(** A [datetime] is a number of microseconds since the epoch (UTC). *)
Definition datetime := Z.

Record UserDB := mkUserDB {
  user_id : Z;
  username : string;
  hashed_password : string
}.

Record CategoryDB := mkCategoryDB {
  cat_id : Z;
  cat_name : string
}.

Record PostDB := mkPostDB {
  post_id : Z;
  title : string;
  content : string;
  created_at : datetime;
  author_id : Z;
  category_id : option Z
}.

Record CommentDB := mkCommentDB {
  comment_id : Z;
  comment_content : string;
  comment_created_at : datetime;
  comment_post_id : Z;
  comment_author_id : Z
}.

Record Store := mkStore {
  users : list UserDB;
  categories : list CategoryDB;
  posts : list PostDB;
  comments : list CommentDB
}.

Definition empty_store : Store := mkStore [] [] [] [].

#[global] Instance UserDB_eq_dec : EqDecision UserDB.
Proof. solve_decision. Defined.
#[global] Instance CategoryDB_eq_dec : EqDecision CategoryDB.
Proof. solve_decision. Defined.
#[global] Instance PostDB_eq_dec : EqDecision PostDB.
Proof. solve_decision. Defined.
#[global] Instance CommentDB_eq_dec : EqDecision CommentDB.
Proof. solve_decision. Defined.
#[global] Instance Store_eq_dec : EqDecision Store.
Proof. solve_decision. Defined.

(** ** Request and response bodies (the pydantic models) *)

Record UserCreate := mkUserCreate {
  uc_username : string;
  uc_password : string
}.

Record User := mkUser {
  u_id : Z;
  u_username : string
}.

Record CategoryCreate := mkCategoryCreate {
  cc_name : string
}.

Record PostCreate := mkPostCreate {
  pc_title : string;
  pc_content : string;
  pc_category_id : option Z
}.

Record CommentCreate := mkCommentCreate {
  cm_content : string
}.

Record LoginForm := mkLoginForm {
  form_username : string;
  form_password : string
}.

(** ** Errors *)

Record HTTPException := mkHTTPException {
  status_code : Z;
  detail : string;
  headers : list (string * string)
}.

#[global] Instance HTTPException_eq_dec : EqDecision HTTPException.
Proof. solve_decision. Defined.

Definition HTTP_401_UNAUTHORIZED : Z := 401.

(** A handler returns, raises an [HTTPException] (a handled error, turned
    into a response by the framework), or dies of any other exception. *)
Inductive outcome (A : Type) : Type :=
| Return (a : A)
| Raise (e : HTTPException)
| Fault (exn : string).
Arguments Return {A} a.
Arguments Raise {A} e.
Arguments Fault {A} exn.

(** ** The session: a transactional view over the store *)

(** [committed] is what the database holds; [working] is what this
    session sees, staged changes included.  [commit] publishes the working
    view, [close] drops whatever was not committed. *)
Record Session := mkSession {
  committed : Store;
  working : Store
}.

Definition M (A : Type) : Type := Session -> outcome A * Session.

Definition ret {A} (a : A) : M A := fun s => (Return a, s).

Definition bind {A B} (m : M A) (k : A -> M B) : M B :=
  fun s =>
    match m s with
    | (Return a, s') => k a s'
    | (Raise e, s') => (Raise e, s')
    | (Fault x, s') => (Fault x, s')
    end.

Definition raise {A} (e : HTTPException) : M A := fun s => (Raise e, s).
Definition fault {A} (exn : string) : M A := fun s => (Fault exn, s).

Notation "x <- c1 ;; c2" := (bind c1 (fun x => c2))
  (at level 100, c1 at next level, right associativity).
Notation "c1 ;; c2" := (bind c1 (fun _ => c2))
  (at level 100, right associativity).

(** [db.query(T).filter(p).first()] and [.all()] on each table. *)
Definition query_first {A} (table : Store -> list A) (p : A -> bool) : M (option A) :=
  fun s => (Return (List.find p (table (working s))), s).

Definition query_all {A} (table : Store -> list A) (p : A -> bool) : M (list A) :=
  fun s => (Return (List.filter p (table (working s))), s).

(** Primary keys: the next key of a table is one past its largest key
    (1 on an empty table). *)
Definition next_id (ids : list Z) : Z := fold_right Z.max 0 ids + 1.

Definition set_users (f : list UserDB -> list UserDB) (st : Store) : Store :=
  mkStore (f (users st)) (categories st) (posts st) (comments st).
Definition set_categories (f : list CategoryDB -> list CategoryDB) (st : Store) : Store :=
  mkStore (users st) (f (categories st)) (posts st) (comments st).
Definition set_posts (f : list PostDB -> list PostDB) (st : Store) : Store :=
  mkStore (users st) (categories st) (f (posts st)) (comments st).
Definition set_comments (f : list CommentDB -> list CommentDB) (st : Store) : Store :=
  mkStore (users st) (categories st) (posts st) (f (comments st)).

Definition stage (f : Store -> Store) (s : Session) : Session :=
  mkSession (committed s) (f (working s)).

(** [db.add(row)]: the row is inserted when the session flushes, which in
    every handler is the [db.commit()] on the next line; it receives its
    primary key there.  The staged row is returned with that key. *)
Definition db_add_user (name hashed : string) : M UserDB :=
  fun s =>
    let row := mkUserDB (next_id (map user_id (users (working s)))) name hashed in
    (Return row, stage (set_users (fun l => l ++ [row])) s).

Definition db_add_category (name : string) : M CategoryDB :=
  fun s =>
    let row := mkCategoryDB (next_id (map cat_id (categories (working s)))) name in
    (Return row, stage (set_categories (fun l => l ++ [row])) s).

Definition db_add_post (t c : string) (now : datetime) (author : Z) (cat : option Z) : M PostDB :=
  fun s =>
    let row := mkPostDB (next_id (map post_id (posts (working s)))) t c now author cat in
    (Return row, stage (set_posts (fun l => l ++ [row])) s).

Definition db_add_comment (c : string) (now : datetime) (post author : Z) : M CommentDB :=
  fun s =>
    let row := mkCommentDB (next_id (map comment_id (comments (working s)))) c now post author in
    (Return row, stage (set_comments (fun l => l ++ [row])) s).

(** Attribute assignment on a loaded post: the row with that key is
    rewritten at the next flush. *)
Definition db_set_post (row : PostDB) : M unit :=
  fun s =>
    (Return tt,
     stage (set_posts (map (fun r => if decide (post_id r = post_id row) then row else r))) s).

(** [db.delete(row)]: the row with that key is deleted from its table. *)
Definition db_delete_post (row : PostDB) : M unit :=
  fun s =>
    (Return tt,
     stage (set_posts (List.filter (fun r => negb (bool_decide (post_id r = post_id row))))) s).

Definition db_commit : M unit :=
  fun s => (Return tt, mkSession (working s) (working s)).

(** [db.refresh(row)]: the row is read again by primary key. *)
Definition refresh_by {A} (table : Store -> list A) (key : A -> Z) (row : A) : M A :=
  fun s =>
    match List.find (fun r => bool_decide (key r = key row)) (table (working s)) with
    | Some r => (Return r, s)
    | None => (Fault "InvalidRequestError", s)
    end.

(** [db.close()]: what was not committed is gone. *)
Definition db_close (s : Session) : Store := committed s.

(** ** Bearer tokens *)

(** Claim values as they travel in a token. *)
Inductive json :=
| JNull
| JBool (b : bool)
| JInt (z : Z)
| JStr (s : string).

#[global] Instance json_eq_dec : EqDecision json.
Proof. solve_decision. Defined.

(** A token is a string on the wire; it is kept here in parsed form: a
    string that is not a compact signed structure, or the algorithm named
    in the header, the claim set and the signature. *)
Record jws := mkJws {
  jws_alg : string;
  jws_claims : gmap string json;
  jws_signature : string
}.

Inductive token :=
| Malformed (raw : string)
| Compact (j : jws).

Inductive JWTError :=
| JWSError
| JWSSignatureError
| ExpiredSignatureError
| JWTClaimsError.

(** Seconds since the epoch of a datetime, microseconds dropped
    ([timegm(t.utctimetuple())]). *)
Definition timegm (t : datetime) : Z := t / 1000000.

Definition timedelta_minutes (m : Z) : Z := m * 60 * 1000000.

Definition ALGORITHM : string := "HS256".
Definition ACCESS_TOKEN_EXPIRE_MINUTES : Z := 30.

Definition credentials_exception : HTTPException :=
  mkHTTPException HTTP_401_UNAUTHORIZED "Could not validate credentials"
                  [("WWW-Authenticate", "Bearer")].

(** Responses, after [response_model] has shaped them. *)
Record TokenResponse := mkTokenResponse {
  access_token : token;
  token_type : string
}.

Record Post := mkPost {
  p_id : Z;
  p_title : string;
  p_content : string;
  p_created_at : datetime;
  p_author_id : Z;
  p_category_id : option Z
}.

Record Comment := mkComment {
  c_id : Z;
  c_content : string;
  c_created_at : datetime;
  c_post_id : Z;
  c_author_id : Z
}.

Record Category := mkCategory {
  k_id : Z;
  k_name : string
}.

Definition to_User (u : UserDB) : User := mkUser (user_id u) (username u).
Definition to_Category (c : CategoryDB) : Category := mkCategory (cat_id c) (cat_name c).
Definition to_Post (p : PostDB) : Post :=
  mkPost (post_id p) (title p) (content p) (created_at p) (author_id p) (category_id p).
Definition to_Comment (c : CommentDB) : Comment :=
  mkComment (comment_id c) (comment_content c) (comment_created_at c)
            (comment_post_id c) (comment_author_id c).

Inductive response :=
| RUser (u : User)
| RToken (t : TokenResponse)
| RCategory (c : Category)
| RCategories (l : list Category)
| RPost (p : Post)
| RPosts (l : list Post)
| RMessage (msg : string)
| RComment (c : Comment)
| RComments (l : list Comment).

Inductive request :=
| POST_users (user : UserCreate)
| POST_token (form_data : LoginForm)
| POST_categories (tok : token) (category : CategoryCreate)
| GET_categories
| POST_posts (tok : token) (post : PostCreate)
| GET_posts (tok : token) (cat : option Z)
| GET_post (tok : token) (id : Z)
| PUT_post (tok : token) (id : Z) (updated_post : PostCreate)
| DELETE_post (tok : token) (id : Z)
| POST_comments (tok : token) (id : Z) (comment : CommentCreate)
| GET_comments (id : Z).

(** Truthiness of an [Optional[int]]: [None] and [0] are false. *)
Definition truthy (o : option Z) : bool :=
  match o with
  | None => false
  | Some z => negb (z =? 0)
  end.

(** ** Sessions handed out by [SessionLocal] *)

Inductive event :=
| Acquired (sid : nat)
| Released (sid : nat).

#[global] Instance event_eq_dec : EqDecision event.
Proof. solve_decision. Defined.

Record World := mkWorld {
  database : Store;
  next_session : nat;
  trace : list event
}.

Definition SessionLocal (w : World) : nat * Session * World :=
  (next_session w,
   mkSession (database w) (database w),
   mkWorld (database w) (S (next_session w)) (trace w ++ [Acquired (next_session w)])).

(** [get_db]: open a session, hand it to the request ([yield db]), and
    close it in the [finally] clause whatever the request did. *)
Definition get_db {A} (body : M A) (w : World) : outcome A * World :=
  let '(sid, db, w1) := SessionLocal w in
  let '(r, db') := body db in
  (r, mkWorld (db_close db') (next_session w1) (trace w1 ++ [Released sid])).

(** Sessions acquired and not yet released, oldest first. *)
Fixpoint open_sessions (tr : list event) (live : list nat) : list nat :=
  match tr with
  | [] => live
  | Acquired sid :: tr' => open_sessions tr' (live ++ [sid])
  | Released sid :: tr' =>
      open_sessions tr' (List.filter (fun x => negb (Nat.eqb x sid)) live)
  end.

(** ** Field validators of the request bodies *)

Fixpoint drop_while {A} (p : A -> bool) (l : list A) : list A :=
  match l with
  | [] => []
  | x :: l' => if p x then drop_while p l' else l
  end.

(** [value.strip()]: whitespace dropped at both ends.  Which characters
    count as whitespace is the character set's business. *)
Definition strip (isspace : ascii -> bool) (value : string) : string :=
  String.string_of_list_ascii
    (List.rev (drop_while isspace
                 (List.rev (drop_while isspace (String.list_ascii_of_string value))))).

Inductive ValueError := mkValueError (msg : string).

(** [check_non_empty]: [if not value.strip(): raise ValueError(msg)],
    otherwise the value as it came. *)
Definition check_non_empty (isspace : ascii -> bool) (msg value : string)
    : ValueError + string :=
  if bool_decide (strip isspace value = "") then inl (mkValueError msg) else inr value.

Definition CategoryCreate_check_non_empty (isspace : ascii -> bool) :=
  check_non_empty isspace "Field cannot be empty".
Definition PostCreate_check_non_empty (isspace : ascii -> bool) :=
  check_non_empty isspace "Field cannot be empty".
Definition CommentCreate_check_non_empty (isspace : ascii -> bool) :=
  check_non_empty isspace "Comment cannot be empty".

(** ** A concrete instance of the collaborators, to run the model on *)

(** Whitespace among the first 128 characters: tab to carriage return,
    the four separators before space, and space. *)
Definition demo_isspace (c : ascii) : bool :=
  let n := nat_of_ascii c in
  ((9 <=? n) && (n <=? 13) || (28 <=? n) && (n <=? 32))%nat.

(** A stand-in signature that spells out the algorithm, the subject and
    the key. *)
Definition demo_hmac (key : string) (input : string * gmap string json) : string :=
  let subject := match input.2 !! "sub" with
                 | Some (JStr name) => name
                 | _ => ""
                 end in
  input.1 +:+ ":" +:+ subject +:+ ":" +:+ key.

Definition demo_hash (salt password : string) : string :=
  "$" +:+ password +:+ "$" +:+ salt.

Definition demo_verify (password hashed : string) : option bool :=
  match hashed with
  | String "$"%char rest => Some (String.prefix (password +:+ "$") rest)
  | _ => None
  end.

Definition alice : UserDB := mkUserDB 1 "alice" (demo_hash "s1" "wonderland").
Definition bob : UserDB := mkUserDB 2 "bob" (demo_hash "s2" "builder").

Definition demo_store : Store :=
  mkStore [alice; bob]
          [mkCategoryDB 1 "news"]
          [mkPostDB 1 "hello" "first post" 1000 1 None;
           mkPostDB 2 "notes" "second post" 2000 2 (Some 1)]
          [mkCommentDB 1 "nice" 3000 1 2;
           mkCommentDB 2 "thanks" 4000 1 1;
           mkCommentDB 3 "hm" 5000 2 1].

Definition demo_session : Session := mkSession demo_store demo_store.

Definition demo_world : World := mkWorld demo_store 0 [].

(** ** The application *)

Section Blog.

(** Configuration and the two cryptographic collaborators. *)
Variable SECRET_KEY : string.

(** HMAC-SHA256 of the signing input (protected header and claim set)
    under a key. *)
Variable hmac_sha256 : string -> string * gmap string json -> string.

(** The bcrypt context: hashing draws a salt; verification answers yes or
    no, or fails on a stored value it cannot identify as a hash. *)
Variable pwd_context_hash : string -> string -> string.
Variable pwd_context_verify : string -> string -> option bool.

(** Two different keys never sign the same input alike: the idealised
    MAC.  Only the statement about tokens signed under another key rests
    on it. *)
Hypothesis hmac_key_binding :
  forall k1 k2 input, k1 <> k2 -> hmac_sha256 k1 input <> hmac_sha256 k2 input.

Definition verify_password (plain_password hashed_password : string) : M bool :=
  match pwd_context_verify plain_password hashed_password with
  | Some b => ret b
  | None => fault "UnknownHashError"
  end.

Definition get_password_hash (salt password : string) : string :=
  pwd_context_hash salt password.

Definition jwt_encode (claims : gmap string json) (key algorithm : string) : token :=
  Compact (mkJws algorithm claims (hmac_sha256 key (algorithm, claims))).

Definition validate_exp (claims : gmap string json) (now : datetime) : option JWTError :=
  match claims !! "exp" with
  | None => None
  | Some (JInt exp) => if exp <? timegm now then Some ExpiredSignatureError else None
  | Some _ => Some JWTClaimsError
  end.

Definition validate_sub (claims : gmap string json) : option JWTError :=
  match claims !! "sub" with
  | None => None
  | Some (JStr _) => None
  | Some _ => Some JWTClaimsError
  end.

(** [jwt.decode(token, key, algorithms=...)]: the header's algorithm must
    be an allowed one, the signature must be the key's, and the
    registered claims must validate.  Of those, the expiry and the subject
    are the ones this application writes and reads. *)
Definition jwt_decode (tok : token) (key : string) (algorithms : list string)
    (now : datetime) : JWTError + gmap string json :=
  match tok with
  | Malformed _ => inl JWSError
  | Compact j =>
      if negb (bool_decide (jws_alg j ∈ algorithms)) then inl JWSError
      else if negb (bool_decide
                      (jws_signature j = hmac_sha256 key (jws_alg j, jws_claims j)))
      then inl JWSSignatureError
      else match validate_exp (jws_claims j) now with
           | Some e => inl e
           | None =>
               match validate_sub (jws_claims j) with
               | Some e => inl e
               | None => inr (jws_claims j)
               end
           end
  end.

Definition create_access_token (data : gmap string json) (now : datetime) : token :=
  let to_encode := data in
  let expire := now + timedelta_minutes ACCESS_TOKEN_EXPIRE_MINUTES in
  let to_encode := <["exp" := JInt (timegm expire)]> to_encode in
  let encoded_jwt := jwt_encode to_encode SECRET_KEY ALGORITHM in
  encoded_jwt.

Definition get_user (name : string) : M (option UserDB) :=
  query_first users (fun u => bool_decide (username u = name)).

(** [payload.get("sub")] is [None] when the claim is absent; a subject
    that is not a string never comes out of [jwt_decode]. *)
Definition get_current_user (tok : token) (now : datetime) : M UserDB :=
  match jwt_decode tok SECRET_KEY [ALGORITHM] now with
  | inl _ => raise credentials_exception
  | inr payload =>
      match payload !! "sub" with
      | Some (JStr name) =>
          user <- get_user name ;;
          match user with
          | None => raise credentials_exception
          | Some user => ret user
          end
      | _ => raise credentials_exception
      end
  end.

(** *** Endpoints *)

Definition create_user (user : UserCreate) (salt : string) : M UserDB :=
  db_user <- get_user (uc_username user) ;;
  match db_user with
  | Some _ => raise (mkHTTPException 400 "Username already registered" [])
  | None =>
      let hashed_password := get_password_hash salt (uc_password user) in
      db_user <- db_add_user (uc_username user) hashed_password ;;
      db_commit ;;
      db_user <- refresh_by users user_id db_user ;;
      ret db_user
  end.

Definition login_exception : HTTPException :=
  mkHTTPException HTTP_401_UNAUTHORIZED "Incorrect username or password"
                  [("WWW-Authenticate", "Bearer")].

Definition login (form_data : LoginForm) (now : datetime) : M TokenResponse :=
  user <- get_user (form_username form_data) ;;
  match user with
  | None => raise login_exception
  | Some user =>
      ok <- verify_password (form_password form_data) (hashed_password user) ;;
      if negb ok then raise login_exception
      else
        let access_token :=
          create_access_token {[ "sub" := JStr (username user) ]} now in
        ret (mkTokenResponse access_token "bearer")
  end.

Definition create_category (category : CategoryCreate) (current_user : UserDB) : M CategoryDB :=
  db_category <- query_first categories
                   (fun c => bool_decide (cat_name c = cc_name category)) ;;
  match db_category with
  | Some _ => raise (mkHTTPException 400 "Category already exists" [])
  | None =>
      db_category <- db_add_category (cc_name category) ;;
      db_commit ;;
      db_category <- refresh_by categories cat_id db_category ;;
      ret db_category
  end.

Definition get_categories : M (list CategoryDB) :=
  query_all categories (fun _ => true).

Definition create_post (post : PostCreate) (current_user : UserDB) (now : datetime) : M PostDB :=
  (if truthy (pc_category_id post) then
     category <- query_first categories
                   (fun c => bool_decide (Some (cat_id c) = pc_category_id post)) ;;
     match category with
     | None => raise (mkHTTPException 404 "Category not found" [])
     | Some _ => ret tt
     end
   else ret tt) ;;
  db_post <- db_add_post (pc_title post) (pc_content post) now
               (user_id current_user) (pc_category_id post) ;;
  db_commit ;;
  db_post <- refresh_by posts post_id db_post ;;
  ret db_post.

Definition get_posts (cat : option Z) (current_user : UserDB) : M (list PostDB) :=
  let query := fun p : PostDB => bool_decide (author_id p = user_id current_user) in
  let query :=
    if truthy cat
    then fun p => query p && bool_decide (category_id p = cat)
    else query in
  query_all posts query.

Definition owned_post (id : Z) (current_user : UserDB) (p : PostDB) : bool :=
  bool_decide (post_id p = id) && bool_decide (author_id p = user_id current_user).

Definition post_not_found : HTTPException :=
  mkHTTPException 404 "Post not found" [].

Definition get_post (id : Z) (current_user : UserDB) : M PostDB :=
  post <- query_first posts (owned_post id current_user) ;;
  match post with
  | None => raise post_not_found
  | Some post => ret post
  end.

Definition update_post (id : Z) (updated_post : PostCreate) (current_user : UserDB) : M PostDB :=
  db_post <- query_first posts (owned_post id current_user) ;;
  match db_post with
  | None => raise post_not_found
  | Some db_post =>
      (if truthy (pc_category_id updated_post) then
         category <- query_first categories
                       (fun c => bool_decide
                                   (Some (cat_id c) = pc_category_id updated_post)) ;;
         match category with
         | None => raise (mkHTTPException 404 "Category not found" [])
         | Some _ => ret tt
         end
       else ret tt) ;;
      let db_post :=
        mkPostDB (post_id db_post) (pc_title updated_post) (pc_content updated_post)
                 (created_at db_post) (author_id db_post)
                 (pc_category_id updated_post) in
      db_set_post db_post ;;
      db_commit ;;
      db_post <- refresh_by posts post_id db_post ;;
      ret db_post
  end.

Definition delete_post (id : Z) (current_user : UserDB) : M string :=
  db_post <- query_first posts (owned_post id current_user) ;;
  match db_post with
  | None => raise post_not_found
  | Some db_post =>
      db_delete_post db_post ;;
      db_commit ;;
      ret "Post deleted"
  end.

Definition create_comment (id : Z) (comment : CommentCreate) (current_user : UserDB)
    (now : datetime) : M CommentDB :=
  post <- query_first posts (fun p => bool_decide (post_id p = id)) ;;
  match post with
  | None => raise post_not_found
  | Some _ =>
      db_comment <- db_add_comment (cm_content comment) now id (user_id current_user) ;;
      db_commit ;;
      db_comment <- refresh_by comments comment_id db_comment ;;
      ret db_comment
  end.

Definition get_comments (id : Z) : M (list CommentDB) :=
  post <- query_first posts (fun p => bool_decide (post_id p = id)) ;;
  match post with
  | None => raise post_not_found
  | Some _ => query_all comments (fun c => bool_decide (comment_post_id c = id))
  end.

(** *** Routing: which dependencies each endpoint declares *)

Definition endpoint (req : request) (now : datetime) (salt : string) : M response :=
  match req with
  | POST_users user =>
      r <- create_user user salt ;; ret (RUser (to_User r))
  | POST_token form_data =>
      r <- login form_data now ;; ret (RToken r)
  | POST_categories tok category =>
      current_user <- get_current_user tok now ;;
      r <- create_category category current_user ;; ret (RCategory (to_Category r))
  | GET_categories =>
      r <- get_categories ;; ret (RCategories (map to_Category r))
  | POST_posts tok post =>
      current_user <- get_current_user tok now ;;
      r <- create_post post current_user now ;; ret (RPost (to_Post r))
  | GET_posts tok cat =>
      current_user <- get_current_user tok now ;;
      r <- get_posts cat current_user ;; ret (RPosts (map to_Post r))
  | GET_post tok id =>
      current_user <- get_current_user tok now ;;
      r <- get_post id current_user ;; ret (RPost (to_Post r))
  | PUT_post tok id updated_post =>
      current_user <- get_current_user tok now ;;
      r <- update_post id updated_post current_user ;; ret (RPost (to_Post r))
  | DELETE_post tok id =>
      current_user <- get_current_user tok now ;;
      r <- delete_post id current_user ;; ret (RMessage r)
  | POST_comments tok id comment =>
      current_user <- get_current_user tok now ;;
      r <- create_comment id comment current_user now ;; ret (RComment (to_Comment r))
  | GET_comments id =>
      r <- get_comments id ;; ret (RComments (map to_Comment r))
  end.

(** One request: its session comes from [get_db] and is shared by the
    endpoint and the current-user dependency. *)
Definition handle (req : request) (now : datetime) (salt : string) (w : World)
    : outcome response * World :=
  get_db (endpoint req now salt) w.

(** ** Vocabulary of the properties *)

(** User [u] owns a post numbered [id] in store [st]. *)
Definition owns (st : Store) (u : UserDB) (id : Z) : Prop :=
  exists p, p ∈ posts st /\ post_id p = id /\ author_id p = user_id u.

(** Some post numbered [id] exists in store [st]. *)
Definition post_exists (st : Store) (id : Z) : Prop :=
  exists p, p ∈ posts st /\ post_id p = id.

(** Primary keys are unique within each table. *)
Definition unique_keys (st : Store) : Prop :=
  NoDup (map user_id (users st)) /\
  NoDup (map cat_id (categories st)) /\
  NoDup (map post_id (posts st)) /\
  NoDup (map comment_id (comments st)).

Definition session_ok (s : Session) : Prop :=
  unique_keys (committed s) /\ unique_keys (working s).

(** A computation that keeps primary keys unique, however it ends. *)
Definition preserves {A} (m : M A) : Prop :=
  forall s, session_ok s -> session_ok (m s).2.

(** The bearer token a request carries, for the endpoints that ask for
    the current user. *)
Definition request_token (req : request) : option token :=
  match req with
  | POST_categories tok _ | POST_posts tok _ | GET_posts tok _ | GET_post tok _
  | PUT_post tok _ _ | DELETE_post tok _ | POST_comments tok _ _ => Some tok
  | POST_users _ | POST_token _ | GET_categories | GET_comments _ => None
  end.

(** The user on whose behalf a request acts on store [st]: the one its
    token resolves to, if it has a token and the token is accepted. *)
Definition caller (req : request) (now : datetime) (st : Store) : option UserDB :=
  match request_token req with
  | Some tok =>
      match get_current_user tok now (mkSession st st) with
      | (Return u, _) => Some u
      | _ => None
      end
  | None => None
  end.

(** A category reference a post may carry: none, zero, or the key of a
    category row. *)
Definition category_ref_ok (st : Store) (cat : option Z) : Prop :=
  match cat with
  | None => True
  | Some c => c = 0 \/ exists k, k ∈ categories st /\ cat_id k = c
  end.

(** The changes a single request can make to the database, with the user
    who makes them. *)
Inductive effect (st : Store) : option UserDB -> Store -> Prop :=
| eff_none actor :
    effect st actor st
| eff_user name hashed :
    (forall u, u ∈ users st -> username u <> name) ->
    effect st None
      (set_users (fun l => l ++ [mkUserDB (next_id (map user_id l)) name hashed]) st)
| eff_category u name :
    u ∈ users st ->
    (forall k, k ∈ categories st -> cat_name k <> name) ->
    effect st (Some u)
      (set_categories (fun l => l ++ [mkCategoryDB (next_id (map cat_id l)) name]) st)
| eff_post u t c now cat :
    u ∈ users st ->
    category_ref_ok st cat ->
    effect st (Some u)
      (set_posts (fun l => l ++ [mkPostDB (next_id (map post_id l)) t c now
                                          (user_id u) cat]) st)
| eff_update u p t c cat :
    u ∈ users st ->
    p ∈ posts st -> author_id p = user_id u ->
    category_ref_ok st cat ->
    effect st (Some u)
      (set_posts
         (map (fun r => if decide (post_id r = post_id p)
                        then mkPostDB (post_id p) t c (created_at p) (author_id p) cat
                        else r)) st)
| eff_delete u p :
    u ∈ users st ->
    p ∈ posts st -> author_id p = user_id u ->
    effect st (Some u)
      (set_posts (List.filter (fun r => negb (bool_decide (post_id r = post_id p)))) st)
| eff_comment u id c now :
    u ∈ users st ->
    post_exists st id ->
    effect st (Some u)
      (set_comments (fun l => l ++ [mkCommentDB (next_id (map comment_id l)) c now id
                                                (user_id u)]) st).

(** Usernames and category names are unique. *)
Definition unique_names (st : Store) : Prop :=
  NoDup (map username (users st)) /\ NoDup (map cat_name (categories st)).

(** Every author of a post or comment is a user row, and every category a
    post names is none, zero or a category row. *)
Definition refs_ok (st : Store) : Prop :=
  (forall p, p ∈ posts st -> exists u, u ∈ users st /\ user_id u = author_id p) /\
  (forall c, c ∈ comments st -> exists u, u ∈ users st /\ user_id u = comment_author_id c) /\
  (forall p, p ∈ posts st -> category_ref_ok st (category_id p)).

(** A sequence of requests, each with its clock reading and its salt,
    handled one after the other. *)
Fixpoint run (reqs : list (request * datetime * string)) (w : World) : World :=
  match reqs with
  | [] => w
  | (req, now, salt) :: rest => run rest (handle req now salt w).2
  end.

(** Session numbers in the trace are below the next one to hand out. *)
Definition trace_ok (w : World) : Prop :=
  (forall sid, Acquired sid ∈ trace w -> (sid < next_session w)%nat) /\
  open_sessions (trace w) [] = [].

Definition initial_world : World := mkWorld empty_store 0 [].

(** ** Properties *)

(** The category check that [create_post] and [update_post] both make
    before they write. *)
Abbreviation check_category cat :=
  (if truthy cat then
     category <- query_first categories
                   (fun c => bool_decide (Some (cat_id c) = cat)) ;;
     match category with
     | None => raise (mkHTTPException 404 "Category not found" [])
     | Some _ => ret tt
     end
   else ret tt) (only parsing).

(** *** Keys and lookups *)

Lemma next_id_fresh (ids : list Z) (x : Z) : x ∈ ids -> x < next_id ids.
Proof using Type.
  unfold next_id. induction ids as [|y ids IH]; intros Hx.
  - by apply elem_of_nil in Hx.
  - apply elem_of_cons in Hx as [->|Hx]; simpl; [lia|].
    specialize (IH Hx). lia.
Qed.

Lemma find_absent {A} (p : A -> bool) (l : list A) :
  (forall x, x ∈ l -> p x = false) -> List.find p l = None.
Proof using Type.
  induction l as [|y l IH]; intros H; simpl; [done|].
  rewrite (H y) by apply list_elem_of_here.
  apply IH. intros x Hx. apply H. by apply list_elem_of_further.
Qed.

Lemma find_present {A} (p : A -> bool) (l : list A) (x : A) :
  List.find p l = Some x -> x ∈ l /\ p x = true.
Proof using Type.
  intros H. apply List.find_some in H as [Hin Hp].
  split; [by apply list_elem_of_In | done].
Qed.

Lemma find_is_Some {A} (p : A -> bool) (l : list A) (x : A) :
  x ∈ l -> p x = true -> exists y, List.find p l = Some y.
Proof using Type.
  intros Hin Hp. destruct (List.find p l) as [y|] eqn:E; [by exists y|].
  apply list_elem_of_In in Hin.
  pose proof (List.find_none p l E x Hin) as Hf. congruence.
Qed.

Lemma find_app_new {A} (key : A -> Z) (l : list A) (row : A) :
  key row = next_id (map key l) ->
  List.find (fun r => bool_decide (key r = key row)) (l ++ [row]) = Some row.
Proof using Type.
  intros Hk.
  assert (forall l0, (forall x, x ∈ l0 -> key x < key row) ->
            List.find (fun r => bool_decide (key r = key row)) (l0 ++ [row]) = Some row)
    as Hskip.
  { induction l0 as [|y l0 IH]; intros Hlt; simpl.
    - by rewrite bool_decide_eq_true_2.
    - rewrite bool_decide_eq_false_2.
      + apply IH. intros x Hx. apply Hlt. by apply list_elem_of_further.
      + specialize (Hlt y (list_elem_of_here _ _)). lia. }
  apply Hskip. intros x Hx. rewrite Hk.
  apply next_id_fresh. by apply list_elem_of_fmap_2.
Qed.

(** *** Primary keys stay unique *)

Lemma NoDup_add_key {A} (key : A -> Z) (l : list A) (row : A) :
  key row = next_id (map key l) ->
  NoDup (map key l) -> NoDup (map key (l ++ [row])).
Proof using Type.
  intros Hk Hnd. rewrite map_app. apply NoDup_app. split; [done|]. split.
  - intros x Hx Hin. apply list_elem_of_singleton in Hin.
    apply next_id_fresh in Hx. simpl in Hin. lia.
  - apply NoDup_singleton.
Qed.

Lemma NoDup_filter_key {A} (key : A -> Z) (p : A -> bool) (l : list A) :
  NoDup (map key l) -> NoDup (map key (List.filter p l)).
Proof using Type.
  induction l as [|y l IH]; simpl; [done|].
  intros Hnd. apply NoDup_cons in Hnd as [Hy Hnd].
  destruct (p y); simpl; [|by apply IH].
  apply NoDup_cons. split; [|by apply IH].
  intros Hin. apply Hy.
  apply list_elem_of_fmap in Hin as (x & Hx & Hin).
  apply list_elem_of_In, List.filter_In in Hin as [Hin _].
  rewrite Hx. apply list_elem_of_fmap_2. by apply list_elem_of_In.
Qed.

Lemma map_key_set {A} (key : A -> Z) (row : A) (l : list A) :
  map key (map (fun r => if decide (key r = key row) then row else r) l) = map key l.
Proof using Type.
  induction l as [|y l IH]; simpl; [done|].
  rewrite IH. by destruct (decide (key y = key row)) as [->|].
Qed.

Lemma filter_key_length {A} (key : A -> Z) (k : Z) (l : list A) :
  NoDup (map key l) -> (exists x, x ∈ l /\ key x = k) ->
  S (length (List.filter (fun r => negb (bool_decide (key r = k))) l)) = length l.
Proof using Type.
  induction l as [|y l IH]; intros Hnd (x & Hin & Hk).
  - by apply elem_of_nil in Hin.
  - simpl in Hnd. apply NoDup_cons in Hnd as [Hy Hnd]. simpl.
    destruct (decide (key y = k)) as [Hyk|Hyk].
    + rewrite bool_decide_eq_true_2 by done. simpl. f_equal.
      assert (forall z, z ∈ l -> negb (bool_decide (key z = k)) = true) as Hall.
      { intros z Hz. apply negb_true_iff, bool_decide_eq_false_2.
        intros Hzk. apply Hy. rewrite Hyk, <- Hzk. by apply list_elem_of_fmap_2. }
      clear -Hall. induction l as [|z l IH]; simpl; [done|].
      rewrite Hall by apply list_elem_of_here. simpl. f_equal.
      apply IH. intros z' Hz'. apply Hall. by apply list_elem_of_further.
    + rewrite bool_decide_eq_false_2 by done. simpl. f_equal.
      apply IH; [done|]. exists x. split; [|done].
      apply elem_of_cons in Hin as [->|Hin]; [done | done].
Qed.

Lemma preserves_ret {A} (a : A) : preserves (ret a).
Proof using Type. by intros s Hs. Qed.

Lemma preserves_raise {A} (e : HTTPException) : preserves (@raise A e).
Proof using Type. by intros s Hs. Qed.

Lemma preserves_fault {A} (x : string) : preserves (@fault A x).
Proof using Type. by intros s Hs. Qed.

Lemma preserves_bind {A B} (m : M A) (k : A -> M B) :
  preserves m -> (forall a, preserves (k a)) -> preserves (bind m k).
Proof using Type.
  intros Hm Hk s Hs. specialize (Hm s Hs). unfold bind.
  destruct (m s) as [[a|e|x] s1]; simpl in *; [by apply Hk | done | done].
Qed.

Lemma preserves_query_first {A} (table : Store -> list A) (p : A -> bool) :
  preserves (query_first table p).
Proof using Type. by intros s Hs. Qed.

Lemma preserves_query_all {A} (table : Store -> list A) (p : A -> bool) :
  preserves (query_all table p).
Proof using Type. by intros s Hs. Qed.

Lemma preserves_refresh_by {A} (table : Store -> list A) (key : A -> Z) (row : A) :
  preserves (refresh_by table key row).
Proof using Type.
  intros s Hs. unfold refresh_by. by destruct (List.find _ _).
Qed.

Lemma preserves_db_commit : preserves db_commit.
Proof using Type. intros s [_ Hw]. by split. Qed.

Lemma preserves_db_add_user (name hashed : string) : preserves (db_add_user name hashed).
Proof using Type.
  intros s [Hc (Hu & Hk & Hp & Hm)]. split; [done|].
  repeat split; try done. by apply (NoDup_add_key user_id).
Qed.

Lemma preserves_db_add_category (name : string) : preserves (db_add_category name).
Proof using Type.
  intros s [Hc (Hu & Hk & Hp & Hm)]. split; [done|].
  repeat split; try done. by apply (NoDup_add_key cat_id).
Qed.

Lemma preserves_db_add_post (t c : string) (now : datetime) (author : Z) (cat : option Z) :
  preserves (db_add_post t c now author cat).
Proof using Type.
  intros s [Hc (Hu & Hk & Hp & Hm)]. split; [done|].
  repeat split; try done. by apply (NoDup_add_key post_id).
Qed.

Lemma preserves_db_add_comment (c : string) (now : datetime) (post author : Z) :
  preserves (db_add_comment c now post author).
Proof using Type.
  intros s [Hc (Hu & Hk & Hp & Hm)]. split; [done|].
  repeat split; try done. by apply (NoDup_add_key comment_id).
Qed.

Lemma preserves_db_set_post (row : PostDB) : preserves (db_set_post row).
Proof using Type.
  intros s [Hc (Hu & Hk & Hp & Hm)]. split; [done|].
  repeat split; try done. simpl. by rewrite (map_key_set post_id).
Qed.

Lemma preserves_db_delete_post (row : PostDB) : preserves (db_delete_post row).
Proof using Type.
  intros s [Hc (Hu & Hk & Hp & Hm)]. split; [done|].
  repeat split; try done. simpl. by apply NoDup_filter_key.
Qed.

Create HintDb preserves.
#[local] Hint Resolve preserves_ret preserves_raise preserves_fault
  preserves_query_first preserves_query_all preserves_refresh_by preserves_db_commit
  preserves_db_add_user preserves_db_add_category preserves_db_add_post
  preserves_db_add_comment preserves_db_set_post preserves_db_delete_post : preserves.

Ltac preserves_step :=
  match goal with
  | |- preserves (bind _ _) => apply preserves_bind; [|intros ?]
  | |- preserves (match ?x with _ => _ end) => destruct x
  | |- forall _, _ => intros ?
  | |- _ => solve [auto with preserves]
  end.

Ltac solve_preserves := repeat preserves_step.

Lemma preserves_get_current_user (tok : token) (now : datetime) :
  preserves (get_current_user tok now).
Proof using Type. unfold get_current_user, get_user. solve_preserves. Qed.

Lemma preserves_check_category (cat : option Z) : preserves (check_category cat).
Proof using Type. solve_preserves. Qed.

#[local] Hint Resolve preserves_get_current_user preserves_check_category : preserves.

Lemma preserves_endpoint (req : request) (now : datetime) (salt : string) :
  preserves (endpoint req now salt).
Proof using Type.
  destruct req; unfold endpoint;
    unfold create_user, login, create_category, get_categories, create_post,
      get_posts, get_post, update_post, delete_post, create_comment, get_comments,
      get_user, verify_password;
    solve_preserves.
Qed.

(** *** Token verification *)

(** C1.  Whatever bearer token is presented, [get_current_user] either
    returns a row of the user table or raises the one
    [credentials_exception]: status 401, the header
    [WWW-Authenticate: Bearer], the detail "Could not validate
    credentials".  That is the outcome for a token whose signature is not
    the server key's (so for any token signed under another key, whatever
    its claims), for an expired token, for a token without a subject and
    for a subject that names no user; a returned user is a row of the
    store whose username is the token's subject. *)
Theorem get_current_user_credentials (tok : token) (now : datetime) (s : Session) :
  status_code credentials_exception = 401 /\
  headers credentials_exception = [("WWW-Authenticate", "Bearer")] /\
  detail credentials_exception = "Could not validate credentials" /\
  (forall r s', get_current_user tok now s = (r, s') ->
     s' = s /\ (r = Raise credentials_exception \/ exists u, r = Return u)) /\
  (forall j, tok = Compact j ->
     jws_signature j <> hmac_sha256 SECRET_KEY (jws_alg j, jws_claims j) ->
     get_current_user tok now s = (Raise credentials_exception, s)) /\
  (forall key claims, key <> SECRET_KEY ->
     get_current_user (jwt_encode claims key ALGORITHM) now s
       = (Raise credentials_exception, s)) /\
  (forall j exp, tok = Compact j ->
     jws_claims j !! "exp" = Some (JInt exp) -> exp < timegm now ->
     get_current_user tok now s = (Raise credentials_exception, s)) /\
  (forall j, tok = Compact j -> jws_claims j !! "sub" = None ->
     get_current_user tok now s = (Raise credentials_exception, s)) /\
  (forall j name, tok = Compact j -> jws_claims j !! "sub" = Some (JStr name) ->
     (forall u, u ∈ users (working s) -> username u <> name) ->
     get_current_user tok now s = (Raise credentials_exception, s)) /\
  (forall u, (get_current_user tok now s).1 = Return u ->
     u ∈ users (working s) /\
     exists j, tok = Compact j /\
       jws_signature j = hmac_sha256 SECRET_KEY (jws_alg j, jws_claims j) /\
       jws_claims j !! "sub" = Some (JStr (username u)) /\
       get_user (username u) s = (Return (Some u), s)).
Proof using hmac_key_binding.
  split; [done|]. split; [done|]. split; [done|].
  assert (forall name, (forall u, u ∈ users (working s) -> username u <> name) ->
            List.find (fun u => bool_decide (username u = name)) (users (working s)) = None)
    as Hnone.
  { intros name Hno. apply find_absent. intros u Hu.
    apply bool_decide_eq_false_2. by apply Hno. }
  split; [|split; [|split; [|split; [|split; [|split]]]]].
  - intros r s' H. unfold get_current_user in H.
    destruct (jwt_decode tok SECRET_KEY [ALGORITHM] now) as [e|payload];
      [inversion H; split; [done | by left]|].
    destruct (payload !! "sub") as [[| |?|name]|];
      try (inversion H; split; [done | by left]).
    unfold bind, get_user, query_first, raise, ret in H.
    destruct (List.find _ _) as [u|]; inversion H;
      (split; [done|]); [right; by exists u | by left].
  - intros j -> Hsig. unfold get_current_user, jwt_decode.
    destruct (negb (bool_decide (jws_alg j ∈ [ALGORITHM]))); [done|].
    by rewrite bool_decide_eq_false_2.
  - intros key claims Hkey. unfold get_current_user, jwt_decode, jwt_encode.
    cbn [jws_alg jws_claims jws_signature].
    rewrite (bool_decide_eq_true_2 (ALGORITHM ∈ [ALGORITHM])) by apply list_elem_of_here.
    cbn [negb]. rewrite bool_decide_eq_false_2; [done|]. by apply hmac_key_binding.
  - intros j exp -> Hexp Hlt. unfold get_current_user, jwt_decode, validate_exp.
    rewrite Hexp. apply Z.ltb_lt in Hlt. rewrite Hlt.
    destruct (negb (bool_decide (jws_alg j ∈ [ALGORITHM]))); [done|].
    by destruct (negb (bool_decide _)).
  - intros j -> Hsub. unfold get_current_user, jwt_decode, validate_sub.
    rewrite Hsub.
    destruct (negb (bool_decide (jws_alg j ∈ [ALGORITHM]))); [done|].
    destruct (negb (bool_decide _)); [done|].
    destruct (validate_exp (jws_claims j) now); [done|]. by rewrite Hsub.
  - intros j name -> Hsub Hno. unfold get_current_user, jwt_decode, validate_sub.
    rewrite Hsub.
    destruct (negb (bool_decide (jws_alg j ∈ [ALGORITHM]))); [done|].
    destruct (negb (bool_decide _)); [done|].
    destruct (validate_exp (jws_claims j) now); [done|]. rewrite Hsub.
    unfold bind, get_user, query_first. by rewrite (Hnone name Hno).
  - intros u H. unfold get_current_user, jwt_decode in H.
    destruct tok as [raw|j]; [done|].
    destruct (negb (bool_decide (jws_alg j ∈ [ALGORITHM]))); [done|].
    destruct (bool_decide (jws_signature j = _)) eqn:Hsig; simpl in H; [|done].
    apply bool_decide_eq_true_1 in Hsig.
    destruct (validate_exp (jws_claims j) now); [done|].
    destruct (validate_sub (jws_claims j)); [done|].
    destruct (jws_claims j !! "sub") as [[| |?|name]|] eqn:Hsub; try done.
    unfold bind, get_user, query_first, raise, ret in H |- *.
    destruct (List.find _ _) as [u'|] eqn:E; simpl in H; [|done].
    injection H as ->. apply find_present in E as Hp. destruct Hp as [Hin Hp].
    apply bool_decide_eq_true_1 in Hp. subst name.
    split; [done|]. exists j. by rewrite E.
Qed.

(** *** Token issuance *)

Lemma timegm_plus_minutes (t : datetime) (m : Z) :
  timegm (t + timedelta_minutes m) = timegm t + m * 60.
Proof using Type.
  unfold timegm, timedelta_minutes.
  replace (t + m * 60 * 1000000) with (t + (m * 60) * 1000000) by lia.
  by rewrite Z.div_add.
Qed.

Lemma issued_token_decode (data : gmap string json) (subject : string)
    (issued now : datetime) :
  data !! "sub" = Some (JStr subject) ->
  jwt_decode (create_access_token data issued) SECRET_KEY [ALGORITHM] now
  = if timegm issued + 1800 <? timegm now
    then inl ExpiredSignatureError
    else inr (<["exp" := JInt (timegm issued + 1800)]> data).
Proof using Type.
  intros Hsub. unfold create_access_token, jwt_encode, jwt_decode.
  cbn [jws_alg jws_claims jws_signature].
  rewrite (bool_decide_eq_true_2 (ALGORITHM ∈ [ALGORITHM])) by apply list_elem_of_here.
  rewrite bool_decide_eq_true_2 by done. cbn [negb].
  rewrite timegm_plus_minutes. unfold ACCESS_TOKEN_EXPIRE_MINUTES.
  change (30 * 60) with 1800.
  unfold validate_exp, validate_sub. rewrite lookup_insert_eq.
  destruct (timegm issued + 1800 <? timegm now); [done|].
  rewrite lookup_insert_ne by done. by rewrite Hsub.
Qed.

(** C3.  The token issued for a subject at time [T] names the algorithm
    HS256, carries exactly the subject and the expiry [T] + 30 minutes (in
    whole seconds), and is signed with HMAC-SHA256 under the server key
    over that claim set.  Presented at [T] + 29 minutes it decodes to its
    claims and resolves to the subject's user row; presented at [T] + 31
    minutes it is rejected as expired and [get_current_user] raises the
    credentials error.  In general it is accepted exactly as long as the
    clock, in seconds, has not passed the expiry. *)
Theorem access_token_window (subject : string) (T : datetime) (s : Session) :
  let tok := create_access_token {[ "sub" := JStr subject ]} T in
  let claims : gmap string json :=
    <["exp" := JInt (timegm (T + timedelta_minutes 30))]> {[ "sub" := JStr subject ]} in
  tok = Compact (mkJws "HS256" claims (hmac_sha256 SECRET_KEY ("HS256", claims))) /\
  claims !! "sub" = Some (JStr subject) /\
  claims !! "exp" = Some (JInt (timegm T + 30 * 60)) /\
  (forall k, k <> "sub" -> k <> "exp" -> claims !! k = None) /\
  jwt_decode tok SECRET_KEY [ALGORITHM] (T + timedelta_minutes 29) = inr claims /\
  jwt_decode tok SECRET_KEY [ALGORITHM] (T + timedelta_minutes 31)
    = inl ExpiredSignatureError /\
  (forall u, List.find (fun u => bool_decide (username u = subject)) (users (working s))
             = Some u ->
     get_current_user tok (T + timedelta_minutes 29) s = (Return u, s)) /\
  get_current_user tok (T + timedelta_minutes 31) s = (Raise credentials_exception, s) /\
  (forall now,
     jwt_decode tok SECRET_KEY [ALGORITHM] now
     = if timegm T + 30 * 60 <? timegm now then inl ExpiredSignatureError else inr claims).
Proof using Type.
  intros tok claims.
  assert (claims = <["exp" := JInt (timegm T + 1800)]> {[ "sub" := JStr subject ]})
    as Hclaims.
  { unfold claims. by rewrite timegm_plus_minutes. }
  assert (forall now,
     jwt_decode tok SECRET_KEY [ALGORITHM] now
     = if timegm T + 1800 <? timegm now then inl ExpiredSignatureError else inr claims)
    as Hdec.
  { intros now. rewrite Hclaims. apply (issued_token_decode _ subject).
    apply lookup_singleton_eq. }
  assert (claims !! "sub" = Some (JStr subject)) as Hsub.
  { rewrite Hclaims, lookup_insert_ne by done. apply lookup_singleton_eq. }
  assert ((timegm T + 1800 <? timegm (T + timedelta_minutes 29)) = false) as H29.
  { rewrite timegm_plus_minutes. apply Z.ltb_ge. lia. }
  assert ((timegm T + 1800 <? timegm (T + timedelta_minutes 31)) = true) as H31.
  { rewrite timegm_plus_minutes. apply Z.ltb_lt. lia. }
  split.
  { unfold tok, create_access_token, jwt_encode, ALGORITHM,
      ACCESS_TOKEN_EXPIRE_MINUTES. done. }
  split; [done|].
  split. { rewrite Hclaims. apply lookup_insert_eq. }
  split. { intros k Hk1 Hk2. rewrite Hclaims, lookup_insert_ne by done.
           by apply lookup_singleton_ne. }
  split. { by rewrite Hdec, H29. }
  split. { by rewrite Hdec, H31. }
  split.
  { intros u Hu. unfold get_current_user. rewrite Hdec, H29, Hsub.
    unfold bind, get_user, query_first, ret. by rewrite Hu. }
  split. { unfold get_current_user. by rewrite Hdec, H31. }
  exact Hdec.
Qed.

(** *** Ownership of posts *)

Lemma owned_post_spec (id : Z) (u : UserDB) (p : PostDB) :
  owned_post id u p = true <-> post_id p = id /\ author_id p = user_id u.
Proof using Type.
  unfold owned_post. rewrite andb_true_iff, !bool_decide_eq_true. done.
Qed.

Lemma find_owned_Some (st : Store) (u : UserDB) (id : Z) (p : PostDB) :
  List.find (owned_post id u) (posts st) = Some p ->
  p ∈ posts st /\ post_id p = id /\ author_id p = user_id u.
Proof using Type.
  intros H. apply find_present in H as [Hin Hp].
  apply owned_post_spec in Hp as [Hid Hau]. done.
Qed.

Lemma find_owned_None (st : Store) (u : UserDB) (id : Z) :
  List.find (owned_post id u) (posts st) = None <-> ~ owns st u id.
Proof using Type.
  split.
  - intros Hnone (p & Hin & Hid & Hau).
    destruct (find_is_Some (owned_post id u) (posts st) p Hin) as [y Hy].
    + by apply owned_post_spec.
    + congruence.
  - intros Hno. apply find_absent. intros p Hin.
    destruct (owned_post id u p) eqn:E; [|done].
    apply owned_post_spec in E as [Hid Hau].
    exfalso. apply Hno. by exists p.
Qed.

Lemma check_category_outcome (cat : option Z) (s : Session) :
  check_category cat s = (Return tt, s) \/
  check_category cat s = (Raise (mkHTTPException 404 "Category not found" []), s).
Proof using Type.
  destruct (truthy cat); [|by left].
  unfold bind, query_first, ret, raise.
  destruct (List.find _ _); [by left | by right].
Qed.

(** C2.  For a user [u] and a post number [id], reading, updating and
    deleting the post return only if [u] owns a post with that number.
    If [u] owns none, all three raise the same 404 "Post not found" and
    leave the session as it was, whether no post has that number or the
    posts that have it belong to someone else: the outcome is the same in
    any two such stores, and no error of these handlers carries a status
    other than 404. *)
Theorem post_ownership_gate (u : UserDB) (id : Z) (body : PostCreate) (s : Session) :
  (forall r s', get_post id u s = (Return r, s') ->
     owns (working s) u id /\ post_id r = id /\ author_id r = user_id u) /\
  (forall r s', update_post id body u s = (Return r, s') -> owns (working s) u id) /\
  (forall r s', delete_post id u s = (Return r, s') -> owns (working s) u id) /\
  (~ owns (working s) u id ->
     get_post id u s = (Raise post_not_found, s) /\
     update_post id body u s = (Raise post_not_found, s) /\
     delete_post id u s = (Raise post_not_found, s)) /\
  ((forall p, p ∈ posts (working s) -> post_id p <> id) -> ~ owns (working s) u id) /\
  ((forall p, p ∈ posts (working s) -> post_id p = id -> author_id p <> user_id u) ->
     ~ owns (working s) u id) /\
  (forall s2, ~ owns (working s) u id -> ~ owns (working s2) u id ->
     (get_post id u s).1 = (get_post id u s2).1 /\
     (update_post id body u s).1 = (update_post id body u s2).1 /\
     (delete_post id u s).1 = (delete_post id u s2).1) /\
  status_code post_not_found = 404 /\
  (forall e s', get_post id u s = (Raise e, s') \/
                update_post id body u s = (Raise e, s') \/
                delete_post id u s = (Raise e, s') -> status_code e = 404) /\
  (owns (working s) u id ->
     exists p, get_post id u s = (Return p, s) /\
       (delete_post id u s).1 = Return "Post deleted").
Proof using Type.
  assert (~ owns (working s) u id ->
     get_post id u s = (Raise post_not_found, s) /\
     update_post id body u s = (Raise post_not_found, s) /\
     delete_post id u s = (Raise post_not_found, s)) as Hdeny.
  { intros Hno. apply find_owned_None in Hno.
    unfold get_post, update_post, delete_post, bind, query_first, raise.
    by rewrite Hno. }
  assert (forall s0, ~ owns (working s0) u id ->
     (get_post id u s0).1 = Raise post_not_found /\
     (update_post id body u s0).1 = Raise post_not_found /\
     (delete_post id u s0).1 = Raise post_not_found) as Hdeny1.
  { intros s0 Hno. apply find_owned_None in Hno.
    unfold get_post, update_post, delete_post, bind, query_first, raise.
    by rewrite Hno. }
  split; [|split; [|split; [|split; [|split; [|split; [|split; [|split; [|split]]]]]]]].
  - intros r s' H. unfold get_post, bind, query_first, raise, ret in H.
    destruct (List.find _ _) as [p|] eqn:E; inversion H; subst.
    apply find_owned_Some in E as (Hin & Hid & Hau).
    split; [by exists r | done].
  - intros r s' H. unfold update_post, bind at 1, query_first, raise in H.
    destruct (List.find _ _) as [p|] eqn:E; [|by inversion H].
    apply find_owned_Some in E as (Hin & Hid & Hau). by exists p.
  - intros r s' H. unfold delete_post, bind at 1, query_first, raise in H.
    destruct (List.find _ _) as [p|] eqn:E; [|by inversion H].
    apply find_owned_Some in E as (Hin & Hid & Hau). by exists p.
  - exact Hdeny.
  - intros Hnone (p & Hin & Hid & _). by apply (Hnone p).
  - intros Hother (p & Hin & Hid & Hau). by apply (Hother p).
  - intros s2 H1 H2.
    destruct (Hdeny1 s H1) as (-> & -> & ->).
    by destruct (Hdeny1 s2 H2) as (-> & -> & ->).
  - done.
  - intros e s' H.
    destruct (List.find (owned_post id u) (posts (working s))) as [p|] eqn:E.
    + destruct H as [H|[H|H]].
      * unfold get_post, bind, query_first, ret in H. rewrite E in H. by inversion H.
      * unfold update_post in H. unfold bind at 1 in H. unfold query_first at 1 in H.
        rewrite E in H. cbv beta iota in H. unfold bind at 1 in H.
        destruct (check_category_outcome (pc_category_id body) s) as [Hc|Hc];
          rewrite Hc in H; [|by inversion H].
        unfold bind, db_set_post, db_commit, refresh_by, ret in H. simpl in H.
        destruct (List.find _ _); by inversion H.
      * unfold delete_post, bind, query_first, db_delete_post, db_commit, ret in H.
        rewrite E in H. by inversion H.
    + apply find_owned_None in E. destruct (Hdeny E) as (H1 & H2 & H3).
      rewrite H1, H2, H3 in H.
      destruct H as [H|[H|H]]; by inversion H.
  - intros Hown.
    destruct (List.find (owned_post id u) (posts (working s))) as [p|] eqn:E.
    + exists p. unfold get_post, delete_post, bind, query_first, ret. by rewrite E.
    + apply find_owned_None in E. done.
Qed.

(** *** Registration *)

(** C5.  Registering a username that some user row already carries raises
    400 "Username already registered" and leaves the session untouched;
    the request as a whole leaves the database as it was, so no user row
    is added and every stored password hash stays what it was, whatever
    password the second attempt brings. *)
Theorem create_user_duplicate (user : UserCreate) (salt : string) (now : datetime)
    (s : Session) (w : World) (existing : UserDB) :
  username existing = uc_username user ->
  let dup := mkHTTPException 400 "Username already registered" [] in
  (existing ∈ users (working s) -> create_user user salt s = (Raise dup, s)) /\
  (existing ∈ users (database w) ->
     (handle (POST_users user) now salt w).1 = Raise dup /\
     database (handle (POST_users user) now salt w).2 = database w /\
     users (database (handle (POST_users user) now salt w).2) = users (database w) /\
     existing ∈ users (database (handle (POST_users user) now salt w).2)).
Proof using Type.
  intros Hname dup.
  assert (forall s0, existing ∈ users (working s0) ->
            create_user user salt s0 = (Raise dup, s0)) as Hdup.
  { intros s0 Hin. unfold create_user, bind, get_user, query_first, raise.
    destruct (find_is_Some (fun u => bool_decide (username u = uc_username user))
                (users (working s0)) existing Hin) as [y Hy].
    - by apply bool_decide_eq_true_2.
    - by rewrite Hy. }
  split; [apply Hdup|].
  intros Hin.
  assert (handle (POST_users user) now salt w
          = (Raise dup, mkWorld (database w) (S (next_session w))
                          (trace w ++ [Acquired (next_session w)]
                                   ++ [Released (next_session w)]))) as Hh.
  { unfold handle, get_db, SessionLocal, endpoint. unfold bind at 1.
    rewrite Hdup by done. cbn. by rewrite <- app_assoc. }
  rewrite Hh. cbn. done.
Qed.

(** *** Categories of posts *)

Lemma check_category_unknown (c : Z) (s : Session) :
  c <> 0 ->
  (forall k, k ∈ categories (working s) -> cat_id k <> c) ->
  check_category (Some c) s
  = (Raise (mkHTTPException 404 "Category not found" []), s).
Proof using Type.
  intros Hc Hno. unfold truthy.
  rewrite (proj2 (Z.eqb_neq c 0) Hc). cbn [negb].
  unfold bind, query_first, raise. rewrite find_absent; [done|].
  intros k Hk. apply bool_decide_eq_false_2. intros [= Heq]. by apply (Hno k).
Qed.

(** A category number other than zero that names no category: the post
    is refused and nothing is staged or committed. *)
Lemma create_post_unknown_category (post : PostCreate) (u : UserDB) (now : datetime)
    (c : Z) (s : Session) :
  pc_category_id post = Some c -> c <> 0 ->
  (forall k, k ∈ categories (working s) -> cat_id k <> c) ->
  create_post post u now s = (Raise (mkHTTPException 404 "Category not found" []), s).
Proof using Type.
  intros Hcat Hc Hno. unfold create_post. unfold bind at 1.
  by rewrite Hcat, check_category_unknown.
Qed.

Lemma find_after_set {A} (key : A -> Z) (row x : A) (l : list A) :
  x ∈ l -> key x = key row ->
  List.find (fun r => bool_decide (key r = key row))
            (map (fun r => if decide (key r = key row) then row else r) l)
  = Some row.
Proof using Type.
  induction l as [|y l IH]; intros Hin Hk.
  - by apply elem_of_nil in Hin.
  - simpl. destruct (decide (key y = key row)) as [Hy|Hy].
    + by rewrite bool_decide_eq_true_2.
    + rewrite bool_decide_eq_false_2 by done.
      apply elem_of_cons in Hin as [->|Hin]; [done|]. by apply IH.
Qed.

(** C9.  A category number of zero is read as no category at all: the
    category check passes without looking at the category table, so
    [create_post] stores the new post, and [update_post] rewrites an owned
    post, with category 0; and [get_posts] with category 0 applies no
    category filter and returns every post of the caller. *)
Theorem category_zero_unchecked (t c : string) (u : UserDB) (now : datetime) (id : Z)
    (s : Session) :
  check_category (Some 0) s = (Return tt, s) /\
  check_category (Some 0) s = check_category None s /\
  (let row := mkPostDB (next_id (map post_id (posts (working s)))) t c now
                       (user_id u) (Some 0) in
   let st' := set_posts (fun l => l ++ [row]) (working s) in
   create_post (mkPostCreate t c (Some 0)) u now s = (Return row, mkSession st' st')) /\
  (forall p, List.find (owned_post id u) (posts (working s)) = Some p ->
     let row := mkPostDB (post_id p) t c (created_at p) (author_id p) (Some 0) in
     let st' := set_posts
                  (map (fun r => if decide (post_id r = post_id p) then row else r))
                  (working s) in
     update_post id (mkPostCreate t c (Some 0)) u s = (Return row, mkSession st' st') /\
     row ∈ posts st') /\
  get_posts (Some 0) u s = get_posts None u s /\
  get_posts (Some 0) u s
  = (Return (List.filter (fun p => bool_decide (author_id p = user_id u))
                         (posts (working s))), s).
Proof using Type.
  split; [done|]. split; [done|]. split; [|split; [|done]].
  - intros row st'. unfold create_post. unfold bind at 1.
    cbn [pc_category_id pc_title pc_content truthy Z.eqb negb].
    unfold ret at 1. cbv beta iota.
    unfold bind at 1. unfold db_add_post. cbv beta iota zeta. fold row.
    unfold bind at 1. unfold db_commit. cbv beta iota.
    unfold bind, refresh_by, ret, stage, set_posts. cbn [working committed posts].
    rewrite (find_app_new post_id (posts (working s)) row) by done. done.
  - intros p Hp row st'. apply find_owned_Some in Hp as Hspec.
    destruct Hspec as (Hin & Hid & Hau).
    assert (List.find (fun r => bool_decide (post_id r = post_id row)) (posts st')
            = Some row) as Hfind.
    { unfold st', set_posts. cbn [posts].
      change (post_id p) with (post_id row).
      by apply (find_after_set post_id row p). }
    split.
    + unfold update_post. unfold bind at 1. unfold query_first at 1. rewrite Hp.
      cbv beta iota. cbn [pc_category_id pc_title pc_content truthy Z.eqb negb].
      unfold bind at 1. unfold ret at 1. cbv beta iota.
      fold row. unfold bind at 1. unfold db_set_post. cbv beta iota.
      unfold bind at 1. unfold db_commit. cbv beta iota.
      unfold bind, refresh_by, ret, stage. cbn [working committed].
      subst st' row. cbn [post_id] in Hfind |- *. by rewrite Hfind.
    + by apply find_present in Hfind as [? _].
Qed.

(** *** Comments *)

Lemma find_post_exists (st : Store) (id : Z) :
  post_exists st id <->
  exists p, List.find (fun p => bool_decide (post_id p = id)) (posts st) = Some p.
Proof using Type.
  split.
  - intros (p & Hin & Hid).
    apply (find_is_Some _ _ p Hin). by apply bool_decide_eq_true_2.
  - intros (p & Hp). apply find_present in Hp as [Hin Hp].
    apply bool_decide_eq_true_1 in Hp. by exists p.
Qed.

Lemma get_comments_missing (id : Z) (s : Session) :
  ~ post_exists (working s) id -> get_comments id s = (Raise post_not_found, s).
Proof using Type.
  intros Hno. unfold get_comments, bind, query_first, raise.
  destruct (List.find _ _) as [p|] eqn:E; [|done].
  exfalso. apply Hno. apply find_post_exists. by exists p.
Qed.

(** C10.  When a user deletes a post of theirs, the handler answers "Post
    deleted" and commits a store that differs from the old one in the post
    table only: the rows with the deleted number are gone, all other posts
    stay, and users, categories and comments are what they were, so every
    comment that points at the deleted post is still stored.  Nothing
    cascades.  With unique primary keys the post table loses exactly one
    row.  Listing the comments of that post number afterwards raises 404
    "Post not found". *)
Theorem delete_post_keeps_comments (id : Z) (u : UserDB) (s : Session) :
  owns (working s) u id ->
  let st' := set_posts (List.filter (fun r => negb (bool_decide (post_id r = id))))
                       (working s) in
  delete_post id u s = (Return "Post deleted", mkSession st' st') /\
  comments st' = comments (working s) /\
  (forall c, c ∈ comments (working s) -> comment_post_id c = id -> c ∈ comments st') /\
  users st' = users (working s) /\
  categories st' = categories (working s) /\
  (forall q, q ∈ posts st' <-> q ∈ posts (working s) /\ post_id q <> id) /\
  (NoDup (map post_id (posts (working s))) ->
     S (length (posts st')) = length (posts (working s))) /\
  get_comments id (mkSession st' st') = (Raise post_not_found, mkSession st' st').
Proof using Type.
  intros Hown st'.
  assert (forall q, q ∈ posts st' <-> q ∈ posts (working s) /\ post_id q <> id) as Hposts.
  { intros q. unfold st', set_posts. cbn [posts].
    rewrite !list_elem_of_In, List.filter_In, negb_true_iff, bool_decide_eq_false.
    done. }
  split; [|split; [done|split; [done|split; [done|split; [done|split; [done|split]]]]]].
  - destruct (List.find (owned_post id u) (posts (working s))) as [p|] eqn:E.
    + apply find_owned_Some in E as Hspec. destruct Hspec as (_ & Hid & _).
      unfold delete_post, bind, query_first, db_delete_post, db_commit, ret, stage.
      rewrite E. cbn [working committed]. by rewrite Hid.
    + by apply find_owned_None in E.
  - intros Hnd. unfold st', set_posts. cbn [posts].
    apply (filter_key_length post_id); [done|].
    destruct Hown as (p & Hin & Hid & _). by exists p.
  - apply get_comments_missing. cbn [working].
    intros (q & Hq & Hid). apply Hposts in Hq as [_ Hne]. done.
Qed.

(** *** The session of a request *)

Lemma open_sessions_app (tr1 tr2 : list event) (live : list nat) :
  open_sessions (tr1 ++ tr2) live = open_sessions tr2 (open_sessions tr1 live).
Proof using Type.
  revert live. induction tr1 as [|[sid|sid] tr1 IH]; intros live; simpl; [done| |];
    apply IH.
Qed.

Lemma get_db_bracket {A} (body : M A) (w : World) :
  get_db body w
  = ((body (mkSession (database w) (database w))).1,
     mkWorld (committed (body (mkSession (database w) (database w))).2)
             (S (next_session w))
             (trace w ++ [Acquired (next_session w); Released (next_session w)])).
Proof using Type.
  unfold get_db, SessionLocal, db_close.
  destruct (body (mkSession (database w) (database w))) as [r s']. cbn.
  by rewrite <- app_assoc.
Qed.

(** C8.  Handling a request opens one session, numbered with the next
    free session number, runs the endpoint and its dependencies on it, and
    closes it: whatever the outcome (a response, an [HTTPException], or
    any other exception) the trace grows by exactly "acquired [sid],
    released [sid]", the session is not open afterwards, no other session
    is opened or closed, and the next request gets another number.  The
    same holds for any body run under [get_db]. *)
Theorem session_scoped_to_request (req : request) (now : datetime) (salt : string)
    (w : World) :
  let sid := next_session w in
  let s0 := mkSession (database w) (database w) in
  let w' := (handle req now salt w).2 in
  (handle req now salt w).1 = (endpoint req now salt s0).1 /\
  database w' = committed (endpoint req now salt s0).2 /\
  trace w' = trace w ++ [Acquired sid; Released sid] /\
  next_session w' = S sid /\
  (sid ∉ open_sessions (trace w') []) /\
  (forall m, m <> sid ->
     m ∈ open_sessions (trace w') [] <-> m ∈ open_sessions (trace w) []) /\
  (forall (A : Type) (body : M A),
     (get_db body w).1 = (body s0).1 /\
     trace (get_db body w).2 = trace w ++ [Acquired sid; Released sid] /\
     (sid ∉ open_sessions (trace (get_db body w).2) [])) /\
  (forall (A : Type) (r : outcome A) (st : Store),
     get_db (fun s => (r, mkSession (committed s) st)) w
     = (r, mkWorld (database w) (S sid) (trace w ++ [Acquired sid; Released sid]))).
Proof using Type.
  intros sid s0 w'.
  assert (forall tr, open_sessions (tr ++ [Acquired sid; Released sid]) []
            = List.filter (fun x => negb (Nat.eqb x sid)) (open_sessions tr [] ++ [sid]))
    as Hopen.
  { intros tr. by rewrite open_sessions_app. }
  assert (forall tr, sid ∉ open_sessions (tr ++ [Acquired sid; Released sid]) [])
    as Hclosed.
  { intros tr. rewrite Hopen, list_elem_of_In, List.filter_In.
    intros [_ Hne]. by rewrite Nat.eqb_refl in Hne. }
  unfold w', handle. rewrite get_db_bracket. cbn [fst snd database trace next_session].
  fold s0 sid.
  split; [done|]. split; [done|]. split; [done|]. split; [done|].
  split; [apply Hclosed|]. split; [|split].
  - intros m Hm. rewrite Hopen, !list_elem_of_In, List.filter_In, List.in_app_iff.
    rewrite negb_true_iff, Nat.eqb_neq. simpl. split.
    + intros [[Hin|[Heq|[]]] _]; [done | congruence].
    + intros Hin. split; [by left | done].
  - intros A body. rewrite get_db_bracket. cbn [fst snd trace]. fold s0 sid.
    split; [done|]. split; [done|]. apply Hclosed.
  - intros A r st. by rewrite get_db_bracket.
Qed.

(** X20.  Every request leaves the primary keys of the database unique:
    if no two rows of a table share a key before the request, none do
    after it, whatever the request and however it ends. *)
Theorem handle_preserves_unique_keys (req : request) (now : datetime) (salt : string)
    (w : World) :
  unique_keys (database w) -> unique_keys (database (handle req now salt w).2).
Proof using Type.
  intros Hw. unfold handle. rewrite get_db_bracket. cbn [snd database].
  apply (preserves_endpoint req now salt (mkSession (database w) (database w))).
  by split.
Qed.

(** *** What a request can do to the database *)

Lemma get_current_user_cases (tok : token) (now : datetime) (s : Session) :
  get_current_user tok now s = (Raise credentials_exception, s) \/
  exists u, get_current_user tok now s = (Return u, s) /\ u ∈ users (working s).
Proof using Type.
  unfold get_current_user.
  destruct (jwt_decode tok SECRET_KEY [ALGORITHM] now) as [e|payload]; [by left|].
  destruct (payload !! "sub") as [[| |?|name]|]; try by left.
  unfold bind, get_user, query_first, raise, ret.
  destruct (List.find _ _) as [u|] eqn:E; [|by left].
  right. exists u. split; [done|]. by apply find_present in E as [? _].
Qed.

Lemma snd_bind_ret {A B} (m : M A) (f : A -> B) (s : Session) :
  (bind m (fun r => ret (f r)) s).2 = (m s).2.
Proof using Type. unfold bind, ret. by destruct (m s) as [[a|e|x] s']. Qed.

Lemma fst_bind_ret {A B} (m : M A) (f : A -> B) (s : Session) :
  (bind m (fun r => ret (f r)) s).1
  = match (m s).1 with
    | Return a => Return (f a)
    | Raise e => Raise e
    | Fault x => Fault x
    end.
Proof using Type. unfold bind, ret. by destruct (m s) as [[a|e|x] s']. Qed.

Lemma truthy_category_ref (st : Store) (cat : option Z) (k : CategoryDB) :
  List.find (fun c => bool_decide (Some (cat_id c) = cat)) (categories st) = Some k ->
  category_ref_ok st cat.
Proof using Type.
  intros Hk. apply find_present in Hk as [Hin Hk].
  apply bool_decide_eq_true_1 in Hk. subst cat. right. by exists k.
Qed.

Lemma falsy_category_ref (st : Store) (cat : option Z) :
  truthy cat = false -> category_ref_ok st cat.
Proof using Type.
  destruct cat as [c|]; [|done]. simpl. intros Hc.
  apply negb_false_iff, Z.eqb_eq in Hc. by left.
Qed.

Lemma create_user_effect (user : UserCreate) (salt : string) (st : Store) :
  effect st None (committed (create_user user salt (mkSession st st)).2).
Proof using Type.
  unfold create_user. unfold bind at 1. unfold get_user, query_first.
  cbn [working].
  destruct (List.find _ (users st)) as [u|] eqn:E; [apply eff_none|].
  assert (forall u, u ∈ users st -> username u <> uc_username user) as Hfresh.
  { intros u Hu Hname. apply list_elem_of_In in Hu.
    pose proof (List.find_none _ _ E u Hu) as Hf. simpl in Hf.
    by rewrite bool_decide_eq_true_2 in Hf. }
  clear E. unfold bind, db_add_user, db_commit, refresh_by, ret, stage.
  cbn [working committed].
  destruct (List.find _ _); cbn [snd committed];
    by apply (eff_user st (uc_username user)
                (get_password_hash salt (uc_password user))).
Qed.

Lemma login_state (form_data : LoginForm) (now : datetime) (s : Session) :
  (login form_data now s).2 = s.
Proof using Type.
  unfold login, bind, get_user, query_first, verify_password, raise, ret, fault.
  destruct (List.find _ _) as [u|]; [|done].
  destruct (pwd_context_verify _ _) as [[|]|]; done.
Qed.

Lemma create_category_effect (category : CategoryCreate) (u : UserDB) (st : Store) :
  u ∈ users st ->
  effect st (Some u) (committed (create_category category u (mkSession st st)).2).
Proof using Type.
  intros Hu.
  unfold create_category. unfold bind at 1. unfold query_first. cbn [working].
  destruct (List.find _ (categories st)) as [k|] eqn:E; [apply eff_none|].
  assert (forall k, k ∈ categories st -> cat_name k <> cc_name category) as Hfresh.
  { intros k Hk Hname. apply list_elem_of_In in Hk.
    pose proof (List.find_none _ _ E k Hk) as Hf. simpl in Hf.
    by rewrite bool_decide_eq_true_2 in Hf. }
  clear E. unfold bind, db_add_category, db_commit, refresh_by, ret, stage.
  cbn [working committed].
  destruct (List.find _ _); cbn [snd committed];
    by apply (eff_category st u (cc_name category)).
Qed.

Lemma create_post_effect (post : PostCreate) (u : UserDB) (now : datetime) (st : Store) :
  u ∈ users st ->
  effect st (Some u) (committed (create_post post u now (mkSession st st)).2).
Proof using Type.
  intros Hu.
  assert (forall s1 : Session, working s1 = st -> committed s1 = st ->
            category_ref_ok st (pc_category_id post) ->
            effect st (Some u)
              (committed
                 ((db_post <- db_add_post (pc_title post) (pc_content post) now
                                (user_id u) (pc_category_id post) ;;
                   db_commit ;;
                   db_post <- refresh_by posts post_id db_post ;;
                   ret db_post) s1).2)) as Hwrite.
  { intros [c1 w1]; cbn [working committed]; intros -> -> Hcat.
    unfold bind, db_add_post, db_commit, refresh_by, ret, stage.
    cbn [working committed].
    destruct (List.find _ _); cbn [snd committed];
      by apply (eff_post st u (pc_title post) (pc_content post) now
                  (pc_category_id post)). }
  unfold create_post. unfold bind at 1.
  destruct (truthy (pc_category_id post)) eqn:Ht.
  - unfold bind at 1. unfold query_first at 1. cbn [working].
    destruct (List.find _ (categories st)) as [k|] eqn:E; [|apply eff_none].
    unfold ret at 1. apply Hwrite; [done|done|].
    by apply (truthy_category_ref st _ k).
  - unfold ret at 1. apply Hwrite; [done|done|]. by apply falsy_category_ref.
Qed.

Lemma update_post_effect (id : Z) (body : PostCreate) (u : UserDB) (st : Store) :
  u ∈ users st ->
  effect st (Some u) (committed (update_post id body u (mkSession st st)).2).
Proof using Type.
  intros Hu.
  unfold update_post. unfold bind at 1. unfold query_first at 1. cbn [working].
  destruct (List.find (owned_post id u) (posts st)) as [p|] eqn:Ep; [|apply eff_none].
  apply (find_owned_Some st u id p) in Ep as (Hp & Hid & Hau).
  assert (forall s1 : Session, working s1 = st -> committed s1 = st ->
            category_ref_ok st (pc_category_id body) ->
            effect st (Some u)
              (committed
                 ((db_set_post
                     (mkPostDB (post_id p) (pc_title body) (pc_content body)
                               (created_at p) (author_id p) (pc_category_id body)) ;;
                   db_commit ;;
                   db_post <- refresh_by posts post_id
                     (mkPostDB (post_id p) (pc_title body) (pc_content body)
                               (created_at p) (author_id p) (pc_category_id body)) ;;
                   ret db_post) s1).2)) as Hwrite.
  { intros [c1 w1]; cbn [working committed]; intros -> -> Hcat.
    unfold bind, db_set_post, db_commit, refresh_by, ret, stage.
    cbn [working committed].
    destruct (List.find _ _); cbn [snd committed];
      by apply (eff_update st u p (pc_title body) (pc_content body)
                  (pc_category_id body)). }
  unfold bind at 1.
  destruct (truthy (pc_category_id body)) eqn:Ht.
  - unfold bind at 1. unfold query_first at 1. cbn [working].
    destruct (List.find _ (categories st)) as [k|] eqn:E; [|apply eff_none].
    unfold ret at 1. apply Hwrite; [done|done|].
    by apply (truthy_category_ref st _ k).
  - unfold ret at 1. apply Hwrite; [done|done|]. by apply falsy_category_ref.
Qed.

Lemma delete_post_effect (id : Z) (u : UserDB) (st : Store) :
  u ∈ users st ->
  effect st (Some u) (committed (delete_post id u (mkSession st st)).2).
Proof using Type.
  intros Hu.
  unfold delete_post. unfold bind at 1. unfold query_first at 1. cbn [working].
  destruct (List.find (owned_post id u) (posts st)) as [p|] eqn:Ep; [|apply eff_none].
  apply (find_owned_Some st u id p) in Ep as (Hp & Hid & Hau).
  unfold bind, db_delete_post, db_commit, ret, stage. cbn [working committed snd].
  by apply (eff_delete st u p).
Qed.

Lemma create_comment_effect (id : Z) (comment : CommentCreate) (u : UserDB)
    (now : datetime) (st : Store) :
  u ∈ users st ->
  effect st (Some u) (committed (create_comment id comment u now (mkSession st st)).2).
Proof using Type.
  intros Hu.
  unfold create_comment. unfold bind at 1. unfold query_first at 1. cbn [working].
  destruct (List.find _ (posts st)) as [p|] eqn:E; [|apply eff_none].
  assert (post_exists st id) as Hex.
  { apply find_post_exists. by exists p. }
  clear E. unfold bind, db_add_comment, db_commit, refresh_by, ret, stage.
  cbn [working committed].
  destruct (List.find _ _); cbn [snd committed];
    by apply (eff_comment st u id (cm_content comment) now).
Qed.

Lemma read_only_state (u : UserDB) (cat : option Z) (id : Z) (s : Session) :
  (get_categories s).2 = s /\ (get_posts cat u s).2 = s /\
  (get_post id u s).2 = s /\ (get_comments id s).2 = s.
Proof using Type.
  unfold get_categories, get_posts, get_post, get_comments, bind, query_first,
    query_all, raise, ret.
  repeat split; try done.
  - by destruct (List.find _ _).
  - by destruct (List.find _ _).
Qed.

Lemma protected_effect {A} (tok : token) (now : datetime) (k : UserDB -> M A)
    (st : Store) :
  (forall u, u ∈ users st -> effect st (Some u) (committed (k u (mkSession st st)).2)) ->
  effect st
    (match get_current_user tok now (mkSession st st) with
     | (Return u, _) => Some u
     | _ => None
     end)
    (committed (bind (get_current_user tok now) k (mkSession st st)).2).
Proof using Type.
  intros Hk. unfold bind.
  destruct (get_current_user_cases tok now (mkSession st st)) as [H|(u & H & Hu)];
    rewrite H; [apply eff_none | by apply Hk].
Qed.

Lemma endpoint_effect (req : request) (now : datetime) (salt : string) (st : Store) :
  effect st (caller req now st) (committed (endpoint req now salt (mkSession st st)).2).
Proof using Type.
  unfold caller.
  destruct req as [user|form|tok category| |tok post|tok cat|tok id|tok id body|tok id
                  |tok id comment|id]; cbn [endpoint request_token];
    try (apply protected_effect; intros u Hu); rewrite snd_bind_ret.
  - apply create_user_effect.
  - rewrite login_state. apply eff_none.
  - by apply create_category_effect.
  - rewrite (proj1 (read_only_state alice None 0 _)). apply eff_none.
  - by apply create_post_effect.
  - rewrite (proj1 (proj2 (read_only_state u cat 0 _))). apply eff_none.
  - rewrite (proj1 (proj2 (proj2 (read_only_state u None id _)))). apply eff_none.
  - by apply update_post_effect.
  - by apply delete_post_effect.
  - by apply create_comment_effect.
  - rewrite (proj2 (proj2 (proj2 (read_only_state alice None id _)))). apply eff_none.
Qed.

Lemma handle_database (req : request) (now : datetime) (salt : string) (w : World) :
  database (handle req now salt w).2
  = committed (endpoint req now salt (mkSession (database w) (database w))).2.
Proof using Type. unfold handle. by rewrite get_db_bracket. Qed.

Lemma handle_effect_aux (req : request) (now : datetime) (salt : string) (w : World) :
  effect (database w) (caller req now (database w))
         (database (handle req now salt w).2).
Proof using Type. rewrite handle_database. apply endpoint_effect. Qed.

(** *** What the possible changes preserve *)

Lemma NoDup_key_inj {A} (key : A -> Z) (l : list A) (x y : A) :
  NoDup (map key l) -> x ∈ l -> y ∈ l -> key x = key y -> x = y.
Proof using Type.
  induction l as [|z l IH]; intros Hnd Hx Hy Hk.
  - by apply elem_of_nil in Hx.
  - simpl in Hnd. apply NoDup_cons in Hnd as [Hz Hnd].
    apply elem_of_cons in Hx as [->|Hx]; apply elem_of_cons in Hy as [->|Hy].
    + done.
    + exfalso. apply Hz. rewrite Hk. by apply list_elem_of_fmap_2.
    + exfalso. apply Hz. rewrite <- Hk. by apply list_elem_of_fmap_2.
    + by apply IH.
Qed.

Lemma NoDup_add_name {A} (name : A -> string) (l : list A) (row : A) :
  (forall x, x ∈ l -> name x <> name row) ->
  NoDup (map name l) -> NoDup (map name (l ++ [row])).
Proof using Type.
  intros Hfresh Hnd. rewrite map_app. apply NoDup_app. split; [done|]. split.
  - intros n Hn Hin. apply list_elem_of_singleton in Hin. simpl in Hin.
    apply list_elem_of_fmap in Hn as (x & -> & Hx). by apply (Hfresh x).
  - apply NoDup_singleton.
Qed.

Lemma elem_of_set_map {A} (key : A -> Z) (row : A) (l : list A) (q : A) :
  q ∈ map (fun r => if decide (key r = key row) then row else r) l ->
  (q = row /\ exists r, r ∈ l /\ key r = key row) \/ (q ∈ l /\ key q <> key row).
Proof using Type.
  intros Hq. apply list_elem_of_fmap in Hq as (r & -> & Hr).
  destruct (decide (key r = key row)) as [Hk|Hk]; [left | right]; [|done].
  split; [done|]. by exists r.
Qed.

Lemma elem_of_set_map_other {A} (key : A -> Z) (row : A) (l : list A) (q : A) :
  q ∈ l -> key q <> key row ->
  q ∈ map (fun r => if decide (key r = key row) then row else r) l.
Proof using Type.
  intros Hq Hk. apply list_elem_of_fmap. exists q. split; [|done].
  by destruct (decide (key q = key row)).
Qed.

Lemma elem_of_filter_key {A} (key : A -> Z) (k : Z) (l : list A) (q : A) :
  q ∈ List.filter (fun r => negb (bool_decide (key r = k))) l <-> q ∈ l /\ key q <> k.
Proof using Type.
  rewrite !list_elem_of_In, List.filter_In, negb_true_iff, bool_decide_eq_false. done.
Qed.

Lemma category_ref_ok_mono (st st' : Store) (cat : option Z) :
  (forall k, k ∈ categories st -> k ∈ categories st') ->
  category_ref_ok st cat -> category_ref_ok st' cat.
Proof using Type.
  intros Hsub. destruct cat as [c|]; [|done]. simpl.
  intros [Hz|(k & Hk & Hid)]; [by left|]. right. exists k. split; [by apply Hsub|done].
Qed.

Lemma effect_append_only (st st' : Store) (actor : option UserDB) :
  effect st actor st' ->
  (exists l, users st' = users st ++ l) /\
  (exists l, categories st' = categories st ++ l) /\
  (exists l, comments st' = comments st ++ l).
Proof using Type.
  intros H. destruct H; cbn [users categories comments set_users set_categories
                             set_posts set_comments];
    repeat split; try (exists []; by rewrite app_nil_r); by eexists.
Qed.

Lemma effect_unique_names (st st' : Store) (actor : option UserDB) :
  effect st actor st' -> unique_names st -> unique_names st'.
Proof using Type.
  intros H [Hu Hc]. destruct H; try (by split); split; cbn [users categories
      set_users set_categories]; try done.
  - by apply (NoDup_add_name username).
  - by apply (NoDup_add_name cat_name).
Qed.

Lemma effect_refs_ok (st st' : Store) (actor : option UserDB) :
  effect st actor st' -> refs_ok st -> refs_ok st'.
Proof using Type.
  intros H (Hp & Hc & Hk).
  destruct H as [actor|name hashed Hfresh|u name Hu Hfresh|u t c now cat Hu Hcat
                |u p t c cat Hu Hin Hau Hcat|u p Hu Hin Hau|u id c now Hu Hex];
    [done|..]; unfold refs_ok;
    cbn [users categories posts comments set_users set_categories set_posts
         set_comments].
  - split; [|split].
    + intros p Hin. destruct (Hp p Hin) as (u & Hu & Hid). exists u.
      split; [|done]. apply elem_of_app. by left.
    + intros c Hin. destruct (Hc c Hin) as (u & Hu & Hid). exists u.
      split; [|done]. apply elem_of_app. by left.
    + intros p Hin. by apply (category_ref_ok_mono st), Hk.
  - split; [done|]. split; [done|].
    intros p Hin. apply (category_ref_ok_mono st); [|by apply Hk].
    intros k Hkin. cbn [categories]. apply elem_of_app. by left.
  - split; [|split; [done|]].
    + intros p Hin. apply elem_of_app in Hin as [Hin|Hin]; [by apply Hp|].
      apply list_elem_of_singleton in Hin. subst p. by exists u.
    + intros p Hin. apply elem_of_app in Hin as [Hin|Hin].
      * by apply (category_ref_ok_mono st), Hk.
      * apply list_elem_of_singleton in Hin. subst p. done.
  - split; [|split; [done|]].
    + intros q Hq.
      apply (elem_of_set_map post_id
               (mkPostDB (post_id p) t c (created_at p) (author_id p) cat))
        in Hq as [[-> _]|[Hq _]]; [|by apply Hp].
      exists u. by split.
    + intros q Hq.
      apply (elem_of_set_map post_id
               (mkPostDB (post_id p) t c (created_at p) (author_id p) cat))
        in Hq as [[-> _]|[Hq _]]; [done|].
      by apply (category_ref_ok_mono st), Hk.
  - split; [|split; [done|]].
    + intros q Hq. apply elem_of_filter_key in Hq as [Hq _]. by apply Hp.
    + intros q Hq. apply elem_of_filter_key in Hq as [Hq _].
      by apply (category_ref_ok_mono st), Hk.
  - split; [done|]. split; [|done].
    intros c0 Hin. apply elem_of_app in Hin as [Hin|Hin]; [by apply Hc|].
    apply list_elem_of_singleton in Hin. subst c0. by exists u.
Qed.

Lemma effect_others_posts (st st' : Store) (actor : option UserDB) (p : PostDB) :
  effect st actor st' ->
  NoDup (map post_id (posts st)) ->
  p ∈ posts st ->
  (forall u, actor = Some u -> author_id p <> user_id u) ->
  p ∈ posts st'.
Proof using Type.
  intros H Hnd Hp Hother.
  destruct H as [actor|name hashed Hfresh|u name Hu Hfresh|u t c now cat Hu Hcat
                |u p0 t c cat Hu Hin Hau Hcat|u p0 Hu Hin Hau|u id c now Hu Hex];
    cbn [posts set_users set_categories set_posts set_comments]; try done.
  - apply elem_of_app. by left.
  - apply (elem_of_set_map_other post_id
             (mkPostDB (post_id p0) t c (created_at p0) (author_id p0) cat));
      [done|].
    cbn [post_id]. intros Hid.
    apply (Hother u eq_refl). rewrite <- Hau.
    by rewrite (NoDup_key_inj post_id (posts st) p p0 Hnd Hp Hin Hid).
  - apply elem_of_filter_key. split; [done|]. intros Hid.
    apply (Hother u eq_refl). rewrite <- Hau.
    by rewrite (NoDup_key_inj post_id (posts st) p p0 Hnd Hp Hin Hid).
Qed.

Lemma effect_post_identity (st st' : Store) (actor : option UserDB) (p q : PostDB) :
  effect st actor st' ->
  NoDup (map post_id (posts st)) ->
  p ∈ posts st -> q ∈ posts st' -> post_id p = post_id q ->
  author_id q = author_id p /\ created_at q = created_at p.
Proof using Type.
  intros H Hnd Hp Hq Hid.
  assert (q ∈ posts st -> author_id q = author_id p /\ created_at q = created_at p)
    as Hsame.
  { intros Hq'. by rewrite (NoDup_key_inj post_id (posts st) p q Hnd Hp Hq' Hid). }
  destruct H as [actor|name hashed Hfresh|u name Hu Hfresh|u t c now cat Hu Hcat
                |u p0 t c cat Hu Hin Hau Hcat|u p0 Hu Hin Hau|u id c now Hu Hex];
    cbn [posts set_users set_categories set_posts set_comments] in Hq;
    try by apply Hsame.
  - apply elem_of_app in Hq as [Hq|Hq]; [by apply Hsame|].
    apply list_elem_of_singleton in Hq. subst q. cbn [post_id] in Hid.
    assert (post_id p < next_id (map post_id (posts st))) as Hlt.
    { apply next_id_fresh. by apply list_elem_of_fmap_2. }
    lia.
  - apply (elem_of_set_map post_id
             (mkPostDB (post_id p0) t c (created_at p0) (author_id p0) cat))
      in Hq as [[-> _]|[Hq _]]; [|by apply Hsame].
    cbn [post_id author_id created_at] in *.
    by rewrite (NoDup_key_inj post_id (posts st) p p0 Hnd Hp Hin Hid).
  - apply elem_of_filter_key in Hq as [Hq _]. by apply Hsame.
Qed.

(** *** Every request, seen from the database *)

(** X1.  Whatever the request, the database afterwards is the database
    before, or differs from it by one change: a user row with an unused
    name, a category row with an unused name, a post row written by the
    caller, an update or a deletion of a post the caller owns, or a comment
    row written by the caller under an existing post.  The caller is the
    user the request's token resolves to. *)
Theorem request_effect (req : request) (now : datetime) (salt : string) (w : World) :
  effect (database w) (caller req now (database w)) (database (handle req now salt w).2).
Proof using Type. apply handle_effect_aux. Qed.

(** X2.  No request updates or deletes a user, a category or a comment:
    each of these tables afterwards is the table before, possibly with
    rows added at the end. *)
Theorem tables_append_only (req : request) (now : datetime) (salt : string) (w : World) :
  let w' := (handle req now salt w).2 in
  (exists l, users (database w') = users (database w) ++ l) /\
  (exists l, categories (database w') = categories (database w) ++ l) /\
  (exists l, comments (database w') = comments (database w) ++ l).
Proof using Type.
  intros w'. apply (effect_append_only _ _ (caller req now (database w))).
  apply handle_effect_aux.
Qed.

(** X3.  If usernames and category names are unique before a request,
    they are unique after it. *)
Theorem names_stay_unique (req : request) (now : datetime) (salt : string) (w : World) :
  unique_names (database w) -> unique_names (database (handle req now salt w).2).
Proof using Type.
  apply (effect_unique_names _ _ (caller req now (database w))).
  apply handle_effect_aux.
Qed.

(** X4.  If every post and comment names an existing user as its author,
    and every post names no category, category 0 or an existing category,
    the same holds after any request. *)
Theorem references_stay_valid (req : request) (now : datetime) (salt : string)
    (w : World) :
  refs_ok (database w) -> refs_ok (database (handle req now salt w).2).
Proof using Type.
  apply (effect_refs_ok _ _ (caller req now (database w))).
  apply handle_effect_aux.
Qed.

(** X5.  With unique post keys, a request leaves every post of every
    other user in place and unchanged: a post whose author is not the
    caller is still a row of the post table afterwards. *)
Theorem others_posts_untouched (req : request) (now : datetime) (salt : string)
    (w : World) (p : PostDB) :
  NoDup (map post_id (posts (database w))) ->
  p ∈ posts (database w) ->
  (forall u, caller req now (database w) = Some u -> author_id p <> user_id u) ->
  p ∈ posts (database (handle req now salt w).2).
Proof using Type.
  intros Hnd Hp Hother.
  apply (effect_others_posts (database w) _ (caller req now (database w))); try done.
  apply handle_effect_aux.
Qed.

(** X6.  With unique post keys, no request changes the author or the
    creation time of a post: a post found under the same key before and
    after a request has the same author and the same [created_at]. *)
Theorem post_author_never_changes (req : request) (now : datetime) (salt : string)
    (w : World) (p q : PostDB) :
  NoDup (map post_id (posts (database w))) ->
  p ∈ posts (database w) ->
  q ∈ posts (database (handle req now salt w).2) ->
  post_id p = post_id q ->
  author_id q = author_id p /\ created_at q = created_at p.
Proof using Type.
  intros Hnd Hp Hq Hid.
  apply (effect_post_identity (database w) (database (handle req now salt w).2)
           (caller req now (database w))); try done.
  apply handle_effect_aux.
Qed.

(** *** Sequences of requests *)

Lemma handle_unique_keys_aux (req : request) (now : datetime) (salt : string)
    (w : World) :
  unique_keys (database w) -> unique_keys (database (handle req now salt w).2).
Proof using Type.
  intros Hw. rewrite handle_database.
  apply (preserves_endpoint req now salt (mkSession (database w) (database w))).
  by split.
Qed.

Lemma handle_trace_ok (req : request) (now : datetime) (salt : string) (w : World) :
  trace_ok w ->
  trace_ok (handle req now salt w).2 /\
  next_session (handle req now salt w).2 = S (next_session w).
Proof using Type.
  intros [Hlt Hopen]. unfold handle. rewrite get_db_bracket.
  unfold trace_ok. cbn [snd trace next_session]. split; [|done]. split.
  - intros sid Hin. apply elem_of_app in Hin as [Hin|Hin].
    + specialize (Hlt sid Hin). lia.
    + apply elem_of_cons in Hin as [Heq|Hin].
      * injection Heq as ->. lia.
      * apply list_elem_of_singleton in Hin. discriminate.
  - rewrite open_sessions_app, Hopen. simpl. by rewrite Nat.eqb_refl.
Qed.

Lemma run_invariants (reqs : list (request * datetime * string)) (w : World) :
  unique_keys (database w) -> unique_names (database w) -> refs_ok (database w) ->
  trace_ok w ->
  unique_keys (database (run reqs w)) /\ unique_names (database (run reqs w)) /\
  refs_ok (database (run reqs w)) /\ trace_ok (run reqs w) /\
  next_session (run reqs w) = (next_session w + length reqs)%nat.
Proof using Type.
  revert w. induction reqs as [|[[req now] salt] reqs IH]; intros w Hk Hn Hr Ht.
  - simpl. split; [done|]. split; [done|]. split; [done|]. split; [done|]. lia.
  - simpl. destruct (handle_trace_ok req now salt w Ht) as [Ht' Hnext].
    destruct (IH (handle req now salt w).2) as (H1 & H2 & H3 & H4 & H5).
    + by apply handle_unique_keys_aux.
    + apply (effect_unique_names (database w) _ (caller req now (database w)));
        [|done].
      apply handle_effect_aux.
    + apply (effect_refs_ok (database w) _ (caller req now (database w))); [|done].
      apply handle_effect_aux.
    + done.
    + split; [done|]. split; [done|]. split; [done|]. split; [done|].
      rewrite H5, Hnext. lia.
Qed.

Lemma initial_world_ok :
  unique_keys (database initial_world) /\ unique_names (database initial_world) /\
  refs_ok (database initial_world) /\ trace_ok initial_world.
Proof using Type.
  repeat split; simpl; try apply NoDup_nil_2; try done.
  - intros p Hp. by apply elem_of_nil in Hp.
  - intros c Hc. by apply elem_of_nil in Hc.
  - intros p Hp. by apply elem_of_nil in Hp.
  - intros sid Hin. by apply elem_of_nil in Hin.
Qed.

(** X7.  Starting from the empty database, after any sequence of requests
    primary keys are unique in every table, usernames and category names
    are unique, every post and comment has an existing user as author, and
    every post's category is none, zero or an existing category. *)
Theorem reachable_database_invariants (reqs : list (request * datetime * string)) :
  let db := database (run reqs initial_world) in
  unique_keys db /\ unique_names db /\ refs_ok db.
Proof using Type.
  destruct initial_world_ok as (Hk & Hn & Hr & Ht).
  destruct (run_invariants reqs initial_world Hk Hn Hr Ht) as (H1 & H2 & H3 & _).
  done.
Qed.

(** X8.  After any sequence of requests no session is left open, and the
    sequence has used as many sessions as it has requests, each acquired
    and released once. *)
Theorem run_releases_all_sessions (reqs : list (request * datetime * string)) :
  let w := run reqs initial_world in
  open_sessions (trace w) [] = [] /\
  next_session w = length reqs /\
  (forall sid, Acquired sid ∈ trace w -> (sid < length reqs)%nat).
Proof using Type.
  destruct initial_world_ok as (Hk & Hn & Hr & Ht).
  destruct (run_invariants reqs initial_world Hk Hn Hr Ht)
    as (_ & _ & _ & [Hlt Hopen] & Hnext).
  cbn [next_session initial_world] in Hnext. simpl in Hnext.
  split; [done|]. split; [done|]. intros sid Hin. rewrite <- Hnext. by apply Hlt.
Qed.

(** *** Registration, login and the token gate *)

Lemma find_app_last {A} (p : A -> bool) (l : list A) (row : A) :
  (forall x, x ∈ l -> p x = false) -> p row = true ->
  List.find p (l ++ [row]) = Some row.
Proof using Type.
  intros Hno Hrow. induction l as [|y l IH]; simpl.
  - by rewrite Hrow.
  - rewrite (Hno y) by apply list_elem_of_here.
    apply IH. intros x Hx. apply Hno. by apply list_elem_of_further.
Qed.

Lemma create_user_new (user : UserCreate) (salt : string) (s : Session) :
  (forall u, u ∈ users (working s) -> username u <> uc_username user) ->
  let row := mkUserDB (next_id (map user_id (users (working s)))) (uc_username user)
                      (get_password_hash salt (uc_password user)) in
  let st' := set_users (fun l => l ++ [row]) (working s) in
  create_user user salt s = (Return row, mkSession st' st').
Proof using Type.
  intros Hfresh row st'. unfold create_user. unfold bind at 1.
  unfold get_user, query_first. rewrite find_absent.
  - cbv beta iota. unfold bind at 1. unfold db_add_user. cbv beta iota zeta.
    fold row. unfold bind at 1. unfold db_commit. cbv beta iota.
    unfold bind, refresh_by, ret, stage, set_users. cbn [working committed users].
    by rewrite (find_app_new user_id (users (working s)) row).
  - intros u Hu. apply bool_decide_eq_false_2. by apply Hfresh.
Qed.

Lemma get_user_new (name : string) (row : UserDB) (st : Store) (c : Store) :
  (forall u, u ∈ users st -> username u <> name) -> username row = name ->
  get_user name (mkSession c (set_users (fun l => l ++ [row]) st))
  = (Return (Some row), mkSession c (set_users (fun l => l ++ [row]) st)).
Proof using Type.
  intros Hfresh Hname. unfold get_user, query_first, set_users. cbn [working users].
  rewrite find_app_last; [done| |by apply bool_decide_eq_true_2].
  intros u Hu. apply bool_decide_eq_false_2. by apply Hfresh.
Qed.

(** X9.  Registering a username that no user row carries returns a new
    row whose key is larger than every existing key, commits the user
    table with that row added at the end, and the response shows the key
    and the name only; looking the name up afterwards finds the row. *)
Theorem create_user_fresh (user : UserCreate) (salt : string) (now : datetime)
    (s : Session) :
  (forall u, u ∈ users (working s) -> username u <> uc_username user) ->
  let row := mkUserDB (next_id (map user_id (users (working s)))) (uc_username user)
                      (get_password_hash salt (uc_password user)) in
  let s1 := mkSession (set_users (fun l => l ++ [row]) (working s))
                      (set_users (fun l => l ++ [row]) (working s)) in
  create_user user salt s = (Return row, s1) /\
  (forall u, u ∈ users (working s) -> user_id u < user_id row) /\
  get_user (uc_username user) s1 = (Return (Some row), s1) /\
  endpoint (POST_users user) now salt s
  = (Return (RUser (mkUser (user_id row) (uc_username user))), s1).
Proof using Type.
  intros Hfresh row s1.
  pose proof (create_user_new user salt s Hfresh) as Hnew. cbv zeta in Hnew.
  fold row in Hnew. fold s1 in Hnew.
  split; [done|]. split; [|split].
  - intros u Hu. cbn [user_id row]. apply next_id_fresh. by apply list_elem_of_fmap_2.
  - by apply get_user_new.
  - cbn [endpoint]. unfold bind. by rewrite Hnew.
Qed.

(** X10.  Login never changes the session.  It answers with a token only
    if a user row carries the submitted name and the password context
    accepts the submitted password for that row's hash, and the token is
    then the one issued for that user's name at the time of the request.
    Every refusal, whether the name is unknown or the password wrong, is
    the same 401 "Incorrect username or password". *)
Theorem login_outcomes (form_data : LoginForm) (now : datetime) (s : Session) :
  (login form_data now s).2 = s /\
  (forall e, (login form_data now s).1 = Raise e -> e = login_exception) /\
  ((forall u, u ∈ users (working s) -> username u <> form_username form_data) ->
     (login form_data now s).1 = Raise login_exception) /\
  (forall u, get_user (form_username form_data) s = (Return (Some u), s) ->
     pwd_context_verify (form_password form_data) (hashed_password u) = Some false ->
     (login form_data now s).1 = Raise login_exception) /\
  (forall r, (login form_data now s).1 = Return r ->
     exists u, u ∈ users (working s) /\ username u = form_username form_data /\
       pwd_context_verify (form_password form_data) (hashed_password u) = Some true /\
       r = mkTokenResponse
             (create_access_token {[ "sub" := JStr (username u) ]} now) "bearer").
Proof using Type.
  split; [apply login_state|].
  unfold login, bind, get_user, query_first, verify_password, raise, ret, fault.
  split; [|split; [|split]].
  - intros e. destruct (List.find _ _) as [u|]; [|by intros [= <-]].
    destruct (pwd_context_verify _ _) as [[|]|]; simpl; try done. by intros [= <-].
  - intros Hno. rewrite find_absent; [done|].
    intros u Hu. apply bool_decide_eq_false_2. by apply Hno.
  - intros u [= Hu] Hv. rewrite Hu. cbn. by rewrite Hv.
  - intros r. destruct (List.find _ _) as [u|] eqn:E; [|done].
    destruct (pwd_context_verify _ _) as [[|]|] eqn:Hv; simpl; try done.
    intros [= <-]. exists u. apply find_present in E as [Hin Hname].
    apply bool_decide_eq_true_1 in Hname. done.
Qed.

(** X11.  Register, log in, present the token: if the name is new and the
    password context accepts the password for the hash it has just made,
    then after registration a login with the same name and password returns
    a bearer token, and until that token expires [get_current_user]
    resolves it to the row that registration created. *)
Theorem register_login_authenticate (user : UserCreate) (salt : string)
    (now now' : datetime) (s : Session) :
  (forall u, u ∈ users (working s) -> username u <> uc_username user) ->
  pwd_context_verify (uc_password user)
    (get_password_hash salt (uc_password user)) = Some true ->
  timegm now' <= timegm now + 30 * 60 ->
  let s1 := (create_user user salt s).2 in
  exists tok row,
    (create_user user salt s).1 = Return row /\
    login (mkLoginForm (uc_username user) (uc_password user)) now s1
    = (Return (mkTokenResponse tok "bearer"), s1) /\
    get_current_user tok now' s1 = (Return row, s1) /\
    username row = uc_username user.
Proof using Type.
  intros Hfresh Hverify Hnow s1.
  pose proof (create_user_new user salt s Hfresh) as Hnew. cbv zeta in Hnew.
  set (row := mkUserDB (next_id (map user_id (users (working s)))) (uc_username user)
                       (get_password_hash salt (uc_password user))) in *.
  assert (forall c, get_user (uc_username user)
                      (mkSession c (set_users (fun l => l ++ [row]) (working s)))
                    = (Return (Some row),
                       mkSession c (set_users (fun l => l ++ [row]) (working s))))
    as Hget.
  { intros c. by apply get_user_new. }
  unfold s1. rewrite Hnew. cbn [fst snd].
  exists (create_access_token {[ "sub" := JStr (uc_username user) ]} now), row.
  split; [done|]. split; [|split; [|done]].
  - unfold login. unfold bind at 1. cbn [form_username form_password].
    rewrite Hget. cbv beta iota. unfold bind, verify_password.
    cbn [hashed_password row]. rewrite Hverify. done.
  - unfold get_current_user.
    rewrite (issued_token_decode _ (uc_username user)) by apply lookup_singleton_eq.
    change (30 * 60) with 1800 in Hnow.
    rewrite (proj2 (Z.ltb_ge _ _) Hnow).
    rewrite lookup_insert_ne by done. rewrite lookup_singleton_eq.
    unfold bind at 1. rewrite Hget. done.
Qed.

(** X12.  A protected endpoint does nothing for a token that
    [get_current_user] refuses: the request ends in the credentials error
    and the database is unchanged. *)
Theorem rejected_token_stops_request (req : request) (now : datetime) (salt : string)
    (w : World) (tok : token) :
  request_token req = Some tok ->
  (get_current_user tok now (mkSession (database w) (database w))).1
  = Raise credentials_exception ->
  (handle req now salt w).1 = Raise credentials_exception /\
  database (handle req now salt w).2 = database w.
Proof using Type.
  intros Htok Hrej.
  assert (get_current_user tok now (mkSession (database w) (database w))
          = (Raise credentials_exception, mkSession (database w) (database w))) as Hg.
  { destruct (get_current_user_cases tok now (mkSession (database w) (database w)))
      as [H|(u & H & _)]; [done|]. rewrite H in Hrej. done. }
  unfold handle. rewrite get_db_bracket. cbn [fst snd database].
  assert (forall (A : Type) (k : UserDB -> M A),
            bind (get_current_user tok now) k (mkSession (database w) (database w))
            = (Raise credentials_exception, mkSession (database w) (database w)))
    as Hbind.
  { intros A k. unfold bind. by rewrite Hg. }
  destruct req; cbn [request_token] in Htok; try discriminate;
    injection Htok as ->; cbn [endpoint]; by rewrite !Hbind.
Qed.

Lemma endpoint_read_only (req : request) (now : datetime) (salt : string) (s : Session) :
  match req with
  | POST_token _ | GET_categories | GET_posts _ _ | GET_post _ _ | GET_comments _ => True
  | _ => False
  end ->
  (endpoint req now salt s).2 = s.
Proof using Type.
  destruct req as [user|form|tok category| |tok post|tok cat|tok id|tok id body|tok id
                  |tok id comment|id]; try done; intros _; cbn [endpoint].
  - rewrite snd_bind_ret. apply login_state.
  - unfold bind at 1.
    destruct (get_current_user_cases tok now s) as [H|(u & H & _)]; rewrite H; [done|].
    rewrite snd_bind_ret. apply (read_only_state u cat 0 s).
  - unfold bind at 1.
    destruct (get_current_user_cases tok now s) as [H|(u & H & _)]; rewrite H; [done|].
    rewrite snd_bind_ret. apply (read_only_state u None id s).
  - rewrite snd_bind_ret. apply (read_only_state alice None id s).
Qed.

(** X13.  Logging in, listing categories, listing or reading posts and
    listing comments never write: whatever the outcome, the database after
    the request is the database before it. *)
Theorem reads_leave_database_unchanged (now : datetime) (salt : string) (w : World)
    (form_data : LoginForm) (tok : token) (cat : option Z) (id : Z) :
  database (handle (POST_token form_data) now salt w).2 = database w /\
  database (handle GET_categories now salt w).2 = database w /\
  database (handle (GET_posts tok cat) now salt w).2 = database w /\
  database (handle (GET_post tok id) now salt w).2 = database w /\
  database (handle (GET_comments id) now salt w).2 = database w.
Proof using Type.
  repeat split; rewrite handle_database; by rewrite endpoint_read_only.
Qed.

(** *** Categories, posts and comments: write, then read *)

Lemma filter_all {A} (l : list A) : List.filter (fun _ => true) l = l.
Proof using Type. induction l as [|y l IH]; simpl; [done | by rewrite IH]. Qed.

(** X14.  Creating a category whose name some row already carries raises
    400 "Category already exists" and changes nothing; creating one with a
    new name returns a row with a key above every existing key and commits
    the category table with that row at the end, which the category
    listing then shows. *)
Theorem create_category_outcomes (category : CategoryCreate) (u : UserDB) (s : Session) :
  ((exists k, k ∈ categories (working s) /\ cat_name k = cc_name category) ->
     create_category category u s
     = (Raise (mkHTTPException 400 "Category already exists" []), s)) /\
  ((forall k, k ∈ categories (working s) -> cat_name k <> cc_name category) ->
     let row := mkCategoryDB (next_id (map cat_id (categories (working s))))
                             (cc_name category) in
     let s1 := mkSession (set_categories (fun l => l ++ [row]) (working s))
                         (set_categories (fun l => l ++ [row]) (working s)) in
     create_category category u s = (Return row, s1) /\
     (forall k, k ∈ categories (working s) -> cat_id k < cat_id row) /\
     get_categories s1 = (Return (categories (working s) ++ [row]), s1)).
Proof using Type.
  split.
  - intros (k & Hk & Hname).
    unfold create_category, bind, query_first, raise.
    destruct (find_is_Some (fun c => bool_decide (cat_name c = cc_name category))
                (categories (working s)) k Hk) as [y Hy].
    + by apply bool_decide_eq_true_2.
    + by rewrite Hy.
  - intros Hfresh row s1. split; [|split].
    + unfold create_category. unfold bind at 1. unfold query_first.
      rewrite find_absent.
      * cbv beta iota. unfold bind at 1. unfold db_add_category. cbv beta iota zeta.
        fold row. unfold bind at 1. unfold db_commit. cbv beta iota.
        unfold bind, refresh_by, ret, stage, set_categories.
        cbn [working committed categories].
        by rewrite (find_app_new cat_id (categories (working s)) row).
      * intros k Hk. apply bool_decide_eq_false_2. by apply Hfresh.
    + intros k Hk. cbn [cat_id row]. apply next_id_fresh. by apply list_elem_of_fmap_2.
    + unfold get_categories, query_all, s1, set_categories. cbn [working categories].
      by rewrite filter_all.
Qed.

(** X15.  Listing posts returns posts of the caller only, and all of
    them: a post is in the answer exactly if it is stored, its author is
    the caller and, when a category other than zero is asked for, it has
    that category.  The session is unchanged. *)
Theorem get_posts_scoped (cat : option Z) (u : UserDB) (s : Session) :
  exists l, get_posts cat u s = (Return l, s) /\
    forall p, p ∈ l <->
      p ∈ posts (working s) /\ author_id p = user_id u /\
      (truthy cat = true -> category_id p = cat).
Proof using Type.
  unfold get_posts, query_all. destruct (truthy cat) eqn:Ht; eexists; split; try done.
  - intros p. rewrite !list_elem_of_In, List.filter_In, andb_true_iff,
      !bool_decide_eq_true. split.
    + intros (Hin & Hau & Hcat). done.
    + intros (Hin & Hau & Hcat). split; [done|]. split; [done|]. by apply Hcat.
  - intros p. rewrite !list_elem_of_In, List.filter_In, bool_decide_eq_true. split.
    + intros (Hin & Hau). done.
    + intros (Hin & Hau & _). done.
Qed.

Lemma check_category_passes (cat : option Z) (s : Session) :
  (truthy cat = true -> exists k, k ∈ categories (working s) /\ Some (cat_id k) = cat) ->
  check_category cat s = (Return tt, s).
Proof using Type.
  intros Hcat. destruct (truthy cat); [|done].
  destruct (Hcat eq_refl) as (k & Hk & Hid).
  unfold bind, query_first, ret.
  destruct (find_is_Some (fun c => bool_decide (Some (cat_id c) = cat))
              (categories (working s)) k Hk) as [y Hy].
  - by apply bool_decide_eq_true_2.
  - by rewrite Hy.
Qed.

(** X16.  A post whose category is none, zero or an existing category is
    stored with the caller as author and the request's clock as creation
    time, under a key above every existing key.  Its author then reads it
    back under that key; any user with another key gets 404 "Post not
    found" for it. *)
Theorem create_post_then_read (post : PostCreate) (u : UserDB) (now : datetime)
    (s : Session) :
  (truthy (pc_category_id post) = true ->
     exists k, k ∈ categories (working s) /\ Some (cat_id k) = pc_category_id post) ->
  let row := mkPostDB (next_id (map post_id (posts (working s)))) (pc_title post)
                      (pc_content post) now (user_id u) (pc_category_id post) in
  let s1 := mkSession (set_posts (fun l => l ++ [row]) (working s))
                      (set_posts (fun l => l ++ [row]) (working s)) in
  create_post post u now s = (Return row, s1) /\
  (forall p, p ∈ posts (working s) -> post_id p < post_id row) /\
  get_post (post_id row) u s1 = (Return row, s1) /\
  (forall v, user_id v <> user_id u ->
     get_post (post_id row) v s1 = (Raise post_not_found, s1)).
Proof using Type.
  intros Hcat row s1.
  assert (forall p, p ∈ posts (working s) -> post_id p < post_id row) as Hlt.
  { intros p Hp. cbn [post_id row]. apply next_id_fresh. by apply list_elem_of_fmap_2. }
  split; [|split; [done|split]].
  - unfold create_post. unfold bind at 1.
    rewrite (check_category_passes _ s Hcat). cbv beta iota.
    unfold bind at 1. unfold db_add_post. cbv beta iota zeta. fold row.
    unfold bind at 1. unfold db_commit. cbv beta iota.
    unfold bind, refresh_by, ret, stage, set_posts. cbn [working committed posts].
    by rewrite (find_app_new post_id (posts (working s)) row).
  - unfold get_post, bind, query_first, ret, s1, set_posts. cbn [working posts].
    rewrite find_app_last; [done| |].
    + intros p Hp. unfold owned_post. rewrite bool_decide_eq_false_2; [done|].
      specialize (Hlt p Hp). lia.
    + unfold owned_post. by rewrite !bool_decide_eq_true_2.
  - intros v Hv. unfold get_post, bind, query_first, raise, s1, set_posts.
    cbn [working posts]. rewrite find_absent; [done|].
    intros p Hp. unfold owned_post. apply elem_of_app in Hp as [Hp|Hp].
    + rewrite bool_decide_eq_false_2; [done|]. specialize (Hlt p Hp). lia.
    + apply list_elem_of_singleton in Hp. subst p. cbn [author_id row].
      rewrite (bool_decide_eq_false_2 (user_id u = user_id v)) by done.
      apply andb_false_r.
Qed.

(** X17.  Any user may comment on any existing post: the comment is
    stored with the commenter as author and the post's number, whoever
    owns the post, and the comment listing of that post then ends with it.
    Under a number no post has, the comment is refused with 404 and
    nothing changes. *)
Theorem create_comment_then_list (id : Z) (comment : CommentCreate) (u : UserDB)
    (now : datetime) (s : Session) :
  (post_exists (working s) id ->
     let row := mkCommentDB (next_id (map comment_id (comments (working s))))
                            (cm_content comment) now id (user_id u) in
     let s1 := mkSession (set_comments (fun l => l ++ [row]) (working s))
                         (set_comments (fun l => l ++ [row]) (working s)) in
     create_comment id comment u now s = (Return row, s1) /\
     get_comments id s1
     = (Return (List.filter (fun c => bool_decide (comment_post_id c = id))
                            (comments (working s)) ++ [row]), s1)) /\
  (~ post_exists (working s) id ->
     create_comment id comment u now s = (Raise post_not_found, s)).
Proof using Type.
  split.
  - intros Hex row s1. apply find_post_exists in Hex as [p Hp]. split.
    + unfold create_comment. unfold bind at 1. unfold query_first. rewrite Hp.
      cbv beta iota. unfold bind at 1. unfold db_add_comment. cbv beta iota zeta.
      fold row. unfold bind at 1. unfold db_commit. cbv beta iota.
      unfold bind, refresh_by, ret, stage, set_comments.
      cbn [working committed comments].
      by rewrite (find_app_new comment_id (comments (working s)) row).
    + unfold get_comments, bind, query_first, query_all, s1, set_comments.
      cbn [working posts comments]. rewrite Hp. cbv beta iota.
      cbn [working comments].
      rewrite List.filter_app. simpl. by rewrite bool_decide_eq_true_2.
  - intros Hno. unfold create_comment, bind, query_first, raise.
    destruct (List.find _ _) as [p|] eqn:E; [|done].
    exfalso. apply Hno. apply find_post_exists. by exists p.
Qed.

Lemma find_owned_after_set (id : Z) (u : UserDB) (p row : PostDB) (l : list PostDB) :
  p ∈ l -> post_id p = id -> post_id row = id -> author_id row = user_id u ->
  List.find (owned_post id u)
            (map (fun r => if decide (post_id r = post_id row) then row else r) l)
  = Some row.
Proof using Type.
  intros Hin Hp Hrow Hau.
  assert (owned_post id u row = true) as Hown by by apply owned_post_spec.
  induction l as [|y l IH]; [by apply elem_of_nil in Hin|].
  simpl. destruct (decide (post_id y = post_id row)) as [Hy|Hy].
  - by rewrite Hown.
  - assert (owned_post id u y = false) as ->.
    { unfold owned_post. rewrite bool_decide_eq_false_2; [done|]. congruence. }
    apply IH. apply elem_of_cons in Hin as [->|Hin]; [congruence|done].
Qed.

(** X18.  Updating a post the caller owns, with a category that is none,
    zero or existing, rewrites its title, content and category and keeps
    its key, author and creation time; reading the post afterwards returns
    the rewritten row.  With a category other than zero that no row
    carries, the update is refused with 404 "Category not found" and
    nothing changes. *)
Theorem update_post_then_read (id : Z) (body : PostCreate) (u : UserDB) (p : PostDB)
    (s : Session) :
  List.find (owned_post id u) (posts (working s)) = Some p ->
  let row := mkPostDB (post_id p) (pc_title body) (pc_content body) (created_at p)
                      (author_id p) (pc_category_id body) in
  let st' := set_posts (map (fun r => if decide (post_id r = post_id p) then row else r))
                       (working s) in
  ((truthy (pc_category_id body) = true ->
      exists k, k ∈ categories (working s) /\ Some (cat_id k) = pc_category_id body) ->
     update_post id body u s = (Return row, mkSession st' st') /\
     get_post id u (mkSession st' st') = (Return row, mkSession st' st')) /\
  (forall c, pc_category_id body = Some c -> c <> 0 ->
     (forall k, k ∈ categories (working s) -> cat_id k <> c) ->
     update_post id body u s
     = (Raise (mkHTTPException 404 "Category not found" []), s)).
Proof using Type.
  intros Hp row st'. apply find_owned_Some in Hp as Hspec.
  destruct Hspec as (Hin & Hid & Hau). split.
  - intros Hcat. split.
    + unfold update_post. unfold bind at 1. unfold query_first at 1. rewrite Hp.
      cbv beta iota. unfold bind at 1.
      rewrite (check_category_passes _ s Hcat). cbv beta iota.
      fold row. unfold bind at 1. unfold db_set_post. cbv beta iota.
      unfold bind at 1. unfold db_commit. cbv beta iota.
      unfold bind, refresh_by, ret, stage. cbn [working committed].
      change (post_id row) with (post_id p). fold st'.
      assert (List.find (fun r => bool_decide (post_id r = post_id p)) (posts st')
              = Some row) as ->; [|done].
      unfold st', set_posts. cbn [posts].
      by apply (find_after_set post_id row p).
    + unfold get_post, bind, query_first, ret, st', set_posts. cbn [working posts].
      change (post_id p) with (post_id row).
      rewrite (find_owned_after_set id u p row); done.
  - intros c Hc Hne Hno. unfold update_post. unfold bind at 1.
    unfold query_first at 1. rewrite Hp. cbv beta iota. unfold bind at 1.
    by rewrite Hc, check_category_unknown.
Qed.

End Blog.

(** *** Comment listing *)

(** C7.  [GET /posts/{id}/comments] takes no token.  If some post has the
    number, the handler returns every stored comment whose [post_id] is
    that number, and nothing else; if no post has it, it raises 404 "Post
    not found".  The response is a function of the number and the store
    alone: it is the same under any signing key, any crypto backend, any
    clock and any salt, for whoever sends the request. *)
Theorem get_comments_public (id : Z) (s : Session) (w : World) :
  (post_exists (working s) id ->
     get_comments id s
     = (Return (List.filter (fun c => bool_decide (comment_post_id c = id))
                            (comments (working s))), s)) /\
  (forall c, c ∈ List.filter (fun c => bool_decide (comment_post_id c = id))
                             (comments (working s))
             <-> c ∈ comments (working s) /\ comment_post_id c = id) /\
  (~ post_exists (working s) id -> get_comments id s = (Raise post_not_found, s)) /\
  status_code post_not_found = 404 /\
  (forall key hmac hash verify now salt,
     endpoint key hmac hash verify (GET_comments id) now salt s
     = match get_comments id s with
       | (Return r, s') => (Return (RComments (map to_Comment r)), s')
       | (Raise e, s') => (Raise e, s')
       | (Fault x, s') => (Fault x, s')
       end) /\
  (forall key hmac hash verify now salt key' hmac' hash' verify' now' salt',
     handle key hmac hash verify (GET_comments id) now salt w
     = handle key' hmac' hash' verify' (GET_comments id) now' salt' w).
Proof.
  split; [|split; [|split; [|split; [done|split; [done|done]]]]].
  - intros Hex. apply find_post_exists in Hex as [p Hp].
    unfold get_comments, bind, query_first, query_all. by rewrite Hp.
  - intros c. rewrite !list_elem_of_In, List.filter_In, bool_decide_eq_true. done.
  - apply get_comments_missing.
Qed.

(** ** The model at work *)

Lemma demo_hmac_key_binding (k1 k2 : string) (input : string * gmap string json) :
  k1 <> k2 -> demo_hmac k1 input <> demo_hmac k2 input.
Proof.
  intros Hne Heq. unfold demo_hmac in Heq.
  do 4 apply (inj (String.app _)) in Heq. done.
Qed.

Lemma get_current_user_credentials_witness :
  (forall k1 k2 input, k1 <> k2 -> demo_hmac k1 input <> demo_hmac k2 input) /\
  get_current_user "server-secret" demo_hmac
    (jwt_encode demo_hmac {[ "sub" := JStr "alice" ]} "guessed-secret" ALGORITHM)
    0 demo_session
  = (Raise credentials_exception, demo_session).
Proof.
  split; [exact demo_hmac_key_binding|].
  destruct (get_current_user_credentials "server-secret" demo_hmac
              demo_hmac_key_binding (Malformed "") 0 demo_session)
    as (_ & _ & _ & _ & _ & Hkey & _).
  apply Hkey. discriminate.
Defined.

Lemma create_user_duplicate_witness :
  username bob = uc_username (mkUserCreate "bob" "another password") /\
  (handle "server-secret" demo_hmac demo_hash demo_verify
     (POST_users (mkUserCreate "bob" "another password")) 0 "s3" demo_world).1
  = Raise (mkHTTPException 400 "Username already registered" []) /\
  database (handle "server-secret" demo_hmac demo_hash demo_verify
              (POST_users (mkUserCreate "bob" "another password")) 0 "s3" demo_world).2
  = demo_store.
Proof.
  split; [reflexivity|].
  destruct (create_user_duplicate "server-secret" demo_hmac demo_hash demo_verify
              (mkUserCreate "bob" "another password") "s3" 0 demo_session demo_world
              bob eq_refl) as [_ Hworld].
  destruct Hworld as (Hraise & Hdb & _).
  - apply list_elem_of_further, list_elem_of_here.
  - split; [exact Hraise | exact Hdb].
Defined.

Lemma delete_post_keeps_comments_witness :
  owns (working demo_session) alice 1 /\
  (delete_post 1 alice demo_session).1 = Return "Post deleted" /\
  comments (committed (delete_post 1 alice demo_session).2) = comments demo_store /\
  (get_comments 1 (delete_post 1 alice demo_session).2).1 = Raise post_not_found.
Proof.
  assert (owns (working demo_session) alice 1) as Hown.
  { exists (mkPostDB 1 "hello" "first post" 1000 1 None).
    split; [apply list_elem_of_here | split; reflexivity]. }
  split; [exact Hown|].
  destruct (delete_post_keeps_comments 1 alice demo_session Hown)
    as (Hdel & Hcomments & _ & _ & _ & _ & _ & Hlist).
  rewrite Hdel. cbn [fst snd committed]. rewrite Hlist.
  split; [reflexivity | split; [exact Hcomments | reflexivity]].
Defined.

(** C6.  A post created with category number 0, which no category row
    carries, is not refused: [create_post] returns the new row and commits
    it with [category_id] 0. *)
Theorem create_post_category_zero_written :
  List.find (fun k => bool_decide (cat_id k = 0)) (categories demo_store) = None /\
  create_post (mkPostCreate "draft" "text" (Some 0)) alice 9000 demo_session
  = (Return (mkPostDB 3 "draft" "text" 9000 1 (Some 0)),
     mkSession
       (set_posts (fun l => l ++ [mkPostDB 3 "draft" "text" 9000 1 (Some 0)]) demo_store)
       (set_posts (fun l => l ++ [mkPostDB 3 "draft" "text" 9000 1 (Some 0)]) demo_store)) /\
  create_post (mkPostCreate "draft" "text" (Some 7)) alice 9000 demo_session
  = (Raise (mkHTTPException 404 "Category not found" []), demo_session).
Proof.
  split; [reflexivity|]. split; reflexivity.
Qed.

(** Bob asks for Alice's post with a token of his own: 404, the same
    answer as for a post number nobody uses. *)
Example other_users_post_is_not_found :
  let bobs_token :=
    create_access_token "server-secret" demo_hmac {[ "sub" := JStr "bob" ]} 5000000 in
  (handle "server-secret" demo_hmac demo_hash demo_verify
     (GET_post bobs_token 1) 6000000 "" demo_world).1 = Raise post_not_found /\
  (handle "server-secret" demo_hmac demo_hash demo_verify
     (GET_post bobs_token 99) 6000000 "" demo_world).1 = Raise post_not_found.
Proof. split; vm_compute; reflexivity. Qed.

(** Alice logs in at second 5 and reads her post one minute later; after
    half an hour and a second the same token is refused. *)
Example login_then_read :
  exists tok,
    (handle "server-secret" demo_hmac demo_hash demo_verify
       (POST_token (mkLoginForm "alice" "wonderland")) 5000000 "" demo_world).1
    = Return (RToken (mkTokenResponse tok "bearer")) /\
    (handle "server-secret" demo_hmac demo_hash demo_verify
       (GET_post tok 1) 65000000 "" demo_world).1
    = Return (RPost (mkPost 1 "hello" "first post" 1000 1 None)) /\
    (handle "server-secret" demo_hmac demo_hash demo_verify
       (GET_post tok 1) 1806000000 "" demo_world).1
    = Raise credentials_exception.
Proof. eexists. split; [reflexivity|]. split; vm_compute; reflexivity. Qed.

(** The three ways out of a request, each with its session released. *)
Example exit_paths_release_the_session :
  let broken := mkWorld (mkStore [mkUserDB 1 "eve" "not a hash"] [] [] []) 4 [Acquired 3] in
  handle "server-secret" demo_hmac demo_hash demo_verify (GET_comments 2) 0 "" demo_world
  = (Return (RComments [mkComment 3 "hm" 5000 2 1]),
     mkWorld demo_store 1 [Acquired 0%nat; Released 0%nat]) /\
  handle "server-secret" demo_hmac demo_hash demo_verify (GET_comments 9) 0 "" demo_world
  = (Raise post_not_found, mkWorld demo_store 1 [Acquired 0%nat; Released 0%nat]) /\
  handle "server-secret" demo_hmac demo_hash demo_verify
    (POST_token (mkLoginForm "eve" "x")) 0 "" broken
  = (Fault "UnknownHashError",
     mkWorld (database broken) 5 [Acquired 3%nat; Acquired 4%nat; Released 4%nat]) /\
  open_sessions [Acquired 3%nat; Acquired 4%nat; Released 4%nat] [] = [3%nat].
Proof. repeat split; vm_compute; reflexivity. Qed.

(** Carol registers; a second registration under her name is refused and
    her stored hash is the one of the first. *)
Example register_twice :
  let H := handle "server-secret" demo_hmac demo_hash demo_verify in
  let w1 := (H (POST_users (mkUserCreate "carol" "first")) 0 "s3" demo_world).2 in
  (H (POST_users (mkUserCreate "carol" "first")) 0 "s3" demo_world).1
  = Return (RUser (mkUser 3 "carol")) /\
  (H (POST_users (mkUserCreate "carol" "second")) 1 "s4" w1).1
  = Raise (mkHTTPException 400 "Username already registered" []) /\
  users (database (H (POST_users (mkUserCreate "carol" "second")) 1 "s4" w1).2)
  = [alice; bob; mkUserDB 3 "carol" (demo_hash "s3" "first")].
Proof. repeat split; vm_compute; reflexivity. Qed.

(** Alice moves her post to category 0, which does not exist: accepted. *)
Example update_post_category_zero :
  update_post 1 (mkPostCreate "hello" "edited" (Some 0)) alice demo_session
  = (Return (mkPostDB 1 "hello" "edited" 1000 1 (Some 0)),
     let st' := mkStore (users demo_store) (categories demo_store)
                  [mkPostDB 1 "hello" "edited" 1000 1 (Some 0);
                   mkPostDB 2 "notes" "second post" 2000 2 (Some 1)]
                  (comments demo_store) in
     mkSession st' st') /\
  (get_posts (Some 0) alice demo_session).1
  = Return [mkPostDB 1 "hello" "first post" 1000 1 None].
Proof. split; reflexivity. Qed.

Example demo_store_unique_keys : unique_keys demo_store.
Proof. repeat split; by apply (bool_decide_unpack _). Qed.

(** *** Field validators *)

Lemma drop_while_nil {A} (p : A -> bool) (l : list A) :
  drop_while p l = [] <-> forall x, x ∈ l -> p x = true.
Proof.
  induction l as [|y l IH]; simpl.
  - split; [|done]. intros _ x Hx. by apply elem_of_nil in Hx.
  - destruct (p y) eqn:Hy.
    + rewrite IH. split.
      * intros H x Hx. apply elem_of_cons in Hx as [->|Hx]; [done | by apply H].
      * intros H x Hx. apply H. by apply list_elem_of_further.
    + split; [done|]. intros H. specialize (H y (list_elem_of_here _ _)). congruence.
Qed.

Lemma drop_while_head {A} (p : A -> bool) (l : list A) (x : A) (t : list A) :
  drop_while p l = x :: t -> p x = false /\ x ∈ l.
Proof.
  induction l as [|y l IH]; simpl; [done|].
  destruct (p y) eqn:Hy.
  - intros H. destruct (IH H) as [Hx Hin]. split; [done|]. by apply list_elem_of_further.
  - intros [= -> _]. split; [done|]. apply list_elem_of_here.
Qed.

Lemma strip_empty (isspace : ascii -> bool) (value : string) :
  strip isspace value = "" <->
  forall c, c ∈ String.list_ascii_of_string value -> isspace c = true.
Proof.
  unfold strip. rewrite <- drop_while_nil.
  destruct (drop_while isspace (String.list_ascii_of_string value)) as [|x t] eqn:E.
  - simpl. done.
  - split; [|done]. intros H. exfalso.
    apply drop_while_head in E as [Hx _].
    assert (List.rev (drop_while isspace (List.rev (x :: t))) = []) as Hrev.
    { destruct (List.rev (drop_while isspace (List.rev (x :: t)))); [done|].
      simpl in H. discriminate. }
    apply (f_equal (@List.rev ascii)) in Hrev. rewrite List.rev_involutive in Hrev.
    simpl in Hrev.
    pose proof (proj1 (drop_while_nil isspace _) Hrev x) as Hall.
    rewrite Hall in Hx; [done|].
    apply elem_of_app. right. apply list_elem_of_here.
Qed.

(** X19.  The field validators refuse exactly the values that consist of
    whitespace only, the empty string among them, with a [ValueError]
    carrying the validator's message; every other value is accepted and
    handed on as it came, leading and trailing whitespace included. *)
Theorem check_non_empty_spec (isspace : ascii -> bool) (msg value : string) :
  (check_non_empty isspace msg value = inl (mkValueError msg) <->
     forall c, c ∈ String.list_ascii_of_string value -> isspace c = true) /\
  (check_non_empty isspace msg value = inr value <->
     exists c, c ∈ String.list_ascii_of_string value /\ isspace c = false) /\
  check_non_empty isspace msg "" = inl (mkValueError msg) /\
  (forall v, check_non_empty isspace msg value = inr v -> v = value) /\
  CategoryCreate_check_non_empty isspace value
  = check_non_empty isspace "Field cannot be empty" value /\
  PostCreate_check_non_empty isspace value
  = check_non_empty isspace "Field cannot be empty" value /\
  CommentCreate_check_non_empty isspace value
  = check_non_empty isspace "Comment cannot be empty" value.
Proof.
  unfold check_non_empty.
  split; [|split; [|split; [done|split; [|done]]]].
  - rewrite <- strip_empty. case_bool_decide; split; done.
  - case_bool_decide as Hs.
    + split; [done|]. intros (c & Hc & Hsp).
      rewrite strip_empty in Hs. rewrite (Hs c Hc) in Hsp. done.
    + split; [|done]. intros _.
      rewrite strip_empty in Hs.
      destruct (List.existsb (fun c => negb (isspace c)) (String.list_ascii_of_string value))
        eqn:Hex.
      * apply List.existsb_exists in Hex as (c & Hc & Hsp).
        exists c. split; [by apply list_elem_of_In | by apply negb_true_iff].
      * exfalso. apply Hs. intros c Hc.
        destruct (isspace c) eqn:Hsp; [done|].
        assert (List.existsb (fun c => negb (isspace c))
                  (String.list_ascii_of_string value) = true) as Habs; [|congruence].
        apply List.existsb_exists. exists c.
        split; [by apply list_elem_of_In | by rewrite Hsp].
  - intros v. case_bool_decide; [done|]. by intros [= <-].
Qed.

(** *** The database properties on the sample store *)

Lemma demo_store_unique_names : unique_names demo_store.
Proof. split; by apply (bool_decide_unpack _). Qed.

Lemma demo_store_refs_ok : refs_ok demo_store.
Proof.
  split; [|split].
  - intros p Hp. apply list_elem_of_In in Hp. simpl in Hp.
    destruct Hp as [<-|[<-|[]]]; [exists alice | exists bob];
      (split; [|reflexivity]).
    + apply list_elem_of_here.
    + apply list_elem_of_further, list_elem_of_here.
  - intros c Hc. apply list_elem_of_In in Hc. simpl in Hc.
    destruct Hc as [<-|[<-|[<-|[]]]]; [exists bob | exists alice | exists alice];
      (split; [|reflexivity]).
    + apply list_elem_of_further, list_elem_of_here.
    + apply list_elem_of_here.
    + apply list_elem_of_here.
  - intros p Hp. apply list_elem_of_In in Hp. simpl in Hp.
    destruct Hp as [<-|[<-|[]]]; simpl; [done|].
    right. exists (mkCategoryDB 1 "news"). split; [apply list_elem_of_here | done].
Qed.

Lemma demo_users_not_carol (u : UserDB) :
  u ∈ users demo_store -> username u <> "carol".
Proof.
  intros Hu. apply list_elem_of_In in Hu. simpl in Hu.
  destruct Hu as [<-|[<-|[]]]; discriminate.
Qed.

Lemma names_stay_unique_witness :
  unique_names (database demo_world) /\
  unique_names
    (database (handle "server-secret" demo_hmac demo_hash demo_verify
                 (POST_users (mkUserCreate "carol" "pw")) 0 "s3" demo_world).2).
Proof.
  split; [exact demo_store_unique_names|].
  exact (names_stay_unique "server-secret" demo_hmac demo_hash demo_verify
           (POST_users (mkUserCreate "carol" "pw")) 0 "s3" demo_world
           demo_store_unique_names).
Defined.

Lemma references_stay_valid_witness :
  refs_ok (database demo_world) /\
  refs_ok
    (database (handle "server-secret" demo_hmac demo_hash demo_verify
                 (POST_posts
                    (create_access_token "server-secret" demo_hmac
                       {[ "sub" := JStr "bob" ]} 5000000)
                    (mkPostCreate "draft" "text" (Some 0)))
                 6000000 "" demo_world).2).
Proof.
  split; [exact demo_store_refs_ok|].
  exact (references_stay_valid "server-secret" demo_hmac demo_hash demo_verify
           _ 6000000 "" demo_world demo_store_refs_ok).
Defined.

Lemma handle_preserves_unique_keys_witness :
  unique_keys (database demo_world) /\
  unique_keys
    (database (handle "server-secret" demo_hmac demo_hash demo_verify
                 (POST_users (mkUserCreate "carol" "pw")) 0 "s3" demo_world).2).
Proof.
  split; [exact demo_store_unique_keys|].
  exact (handle_preserves_unique_keys "server-secret" demo_hmac demo_hash demo_verify
           (POST_users (mkUserCreate "carol" "pw")) 0 "s3" demo_world
           demo_store_unique_keys).
Defined.

Lemma others_posts_untouched_witness :
  let bobs_token :=
    create_access_token "server-secret" demo_hmac {[ "sub" := JStr "bob" ]} 5000000 in
  let alices_post := mkPostDB 1 "hello" "first post" 1000 1 None in
  caller "server-secret" demo_hmac (DELETE_post bobs_token 1) 6000000 demo_store
  = Some bob /\
  alices_post
  ∈ posts (database (handle "server-secret" demo_hmac demo_hash demo_verify
                       (DELETE_post bobs_token 1) 6000000 "" demo_world).2).
Proof.
  intros bobs_token alices_post.
  assert (caller "server-secret" demo_hmac (DELETE_post bobs_token 1) 6000000
            demo_store = Some bob) as Hcaller by (vm_compute; reflexivity).
  split; [exact Hcaller|].
  apply (others_posts_untouched "server-secret" demo_hmac demo_hash demo_verify
           (DELETE_post bobs_token 1) 6000000 "" demo_world alices_post).
  - destruct demo_store_unique_keys as (_ & _ & Hposts & _). exact Hposts.
  - apply list_elem_of_here.
  - intros u Hu. cbn [database demo_world] in Hu. rewrite Hcaller in Hu.
    injection Hu as <-. discriminate.
Defined.

Lemma post_author_never_changes_witness :
  let alices_token :=
    create_access_token "server-secret" demo_hmac {[ "sub" := JStr "alice" ]} 5000000 in
  let before := mkPostDB 1 "hello" "first post" 1000 1 None in
  let after := mkPostDB 1 "hello" "edited" 1000 1 (Some 1) in
  after
  ∈ posts (database (handle "server-secret" demo_hmac demo_hash demo_verify
                       (PUT_post alices_token 1 (mkPostCreate "hello" "edited" (Some 1)))
                       6000000 "" demo_world).2) /\
  author_id after = author_id before /\ created_at after = created_at before.
Proof.
  intros alices_token before after.
  assert (after
          ∈ posts (database (handle "server-secret" demo_hmac demo_hash demo_verify
                     (PUT_post alices_token 1 (mkPostCreate "hello" "edited" (Some 1)))
                     6000000 "" demo_world).2)) as Hafter.
  { apply list_elem_of_In. vm_compute. left. reflexivity. }
  split; [exact Hafter|].
  apply (post_author_never_changes "server-secret" demo_hmac demo_hash demo_verify
           (PUT_post alices_token 1 (mkPostCreate "hello" "edited" (Some 1)))
           6000000 "" demo_world before after).
  - destruct demo_store_unique_keys as (_ & _ & Hposts & _). exact Hposts.
  - apply list_elem_of_here.
  - exact Hafter.
  - reflexivity.
Defined.

Lemma create_user_fresh_witness :
  create_user demo_hash (mkUserCreate "carol" "pw") "s3" demo_session
  = (Return (mkUserDB 3 "carol" (demo_hash "s3" "pw")),
     mkSession (set_users (fun l => l ++ [mkUserDB 3 "carol" (demo_hash "s3" "pw")])
                          demo_store)
               (set_users (fun l => l ++ [mkUserDB 3 "carol" (demo_hash "s3" "pw")])
                          demo_store)).
Proof.
  destruct (create_user_fresh "server-secret" demo_hmac demo_hash demo_verify
              (mkUserCreate "carol" "pw") "s3" 0 demo_session demo_users_not_carol)
    as (Hnew & _).
  exact Hnew.
Defined.

Lemma register_login_authenticate_witness :
  exists tok row,
    login "server-secret" demo_hmac demo_verify (mkLoginForm "carol" "pw") 0
      (create_user demo_hash (mkUserCreate "carol" "pw") "s3" demo_session).2
    = (Return (mkTokenResponse tok "bearer"),
       (create_user demo_hash (mkUserCreate "carol" "pw") "s3" demo_session).2) /\
    get_current_user "server-secret" demo_hmac tok 60000000
      (create_user demo_hash (mkUserCreate "carol" "pw") "s3" demo_session).2
    = (Return row,
       (create_user demo_hash (mkUserCreate "carol" "pw") "s3" demo_session).2) /\
    username row = "carol".
Proof.
  destruct (register_login_authenticate "server-secret" demo_hmac demo_hash demo_verify
              (mkUserCreate "carol" "pw") "s3" 0 60000000 demo_session
              demo_users_not_carol eq_refl)
    as (tok & row & _ & Hlogin & Hauth & Hname).
  - vm_compute. discriminate.
  - exists tok, row. split; [exact Hlogin | split; [exact Hauth | exact Hname]].
Defined.

Lemma rejected_token_stops_request_witness :
  (handle "server-secret" demo_hmac demo_hash demo_verify
     (DELETE_post (Malformed "not a token") 1) 0 "" demo_world).1
  = Raise credentials_exception /\
  database (handle "server-secret" demo_hmac demo_hash demo_verify
              (DELETE_post (Malformed "not a token") 1) 0 "" demo_world).2
  = demo_store.
Proof.
  exact (rejected_token_stops_request "server-secret" demo_hmac demo_hash demo_verify
           (DELETE_post (Malformed "not a token") 1) 0 "" demo_world
           (Malformed "not a token") eq_refl eq_refl).
Defined.

Lemma create_post_then_read_witness :
  let row := mkPostDB 3 "news of the day" "text" 9000 2 (Some 1) in
  let s1 := mkSession (set_posts (fun l => l ++ [row]) demo_store)
                      (set_posts (fun l => l ++ [row]) demo_store) in
  create_post (mkPostCreate "news of the day" "text" (Some 1)) bob 9000 demo_session
  = (Return row, s1) /\
  get_post 3 bob s1 = (Return row, s1) /\
  get_post 3 alice s1 = (Raise post_not_found, s1).
Proof.
  intros row s1.
  destruct (create_post_then_read
              (mkPostCreate "news of the day" "text" (Some 1)) bob 9000 demo_session)
    as (Hnew & _ & Hread & Hother).
  - intros _. exists (mkCategoryDB 1 "news").
    split; [apply list_elem_of_here | reflexivity].
  - split; [exact Hnew|]. split; [exact Hread|]. apply Hother. discriminate.
Defined.

Lemma update_post_then_read_witness :
  let row := mkPostDB 1 "hello" "edited" 1000 1 (Some 1) in
  let st' := mkStore (users demo_store) (categories demo_store)
               [row; mkPostDB 2 "notes" "second post" 2000 2 (Some 1)]
               (comments demo_store) in
  update_post 1 (mkPostCreate "hello" "edited" (Some 1)) alice demo_session
  = (Return row, mkSession st' st') /\
  get_post 1 alice (mkSession st' st') = (Return row, mkSession st' st').
Proof.
  intros row st'.
  destruct (update_post_then_read 1 (mkPostCreate "hello" "edited" (Some 1)) alice
              (mkPostDB 1 "hello" "first post" 1000 1 None) demo_session eq_refl)
    as [Hok _].
  apply Hok. intros _. exists (mkCategoryDB 1 "news").
  split; [apply list_elem_of_here | reflexivity].
Defined.

(** Whitespace-only titles are refused; a padded title is kept as typed. *)
Example check_non_empty_samples :
  PostCreate_check_non_empty demo_isspace "   " = inl (mkValueError "Field cannot be empty") /\
  PostCreate_check_non_empty demo_isspace "" = inl (mkValueError "Field cannot be empty") /\
  PostCreate_check_non_empty demo_isspace "  hello " = inr "  hello " /\
  CommentCreate_check_non_empty demo_isspace "
" = inl (mkValueError "Comment cannot be empty") /\
  strip demo_isspace "  hello " = "hello".
Proof. repeat split; vm_compute; reflexivity. Qed.
